(** * drf_spectacular.utils: the [extend_schema] override chain

    A shallow embedding of [src/drf_spectacular/utils.py].  The decorator
    [extend_schema] closes over its twelve arguments and synthesises a
    subclass [ExtendedSchema] of whatever schema class is already attached
    to the decorated object; stacking decorators therefore builds an
    inheritance chain whose methods consult their own closure first and
    call [super()] otherwise.  Here a closure is a [Layer] record, a schema
    class is a [Schema] (a chain of layers ending in a base class), and
    [super().m()] is the recursive call on the rest of the chain. *)

From stdpp Require Import base numbers strings list gmap.

Open Scope string_scope.
Set Warnings "-register-all".

(** ** Python values *)

(** The arguments of [extend_schema] are arbitrary Python objects.  Only
    their identity with [None] and their truth value are ever inspected. *)
Inductive value :=
  | VNone
  | VBool (b : bool)
  | VInt (n : Z)
  | VStr (s : string)
  | VList (xs : list value)
  | VDict (kvs : list (value * value))
  | VObj (name : string).

(** [bool(v)]: [None], [False], [0], [''], [[]] and [{}] are false, any
    other object (a serializer class or instance, say) is true. *)
Definition truthy (v : value) : bool :=
  match v with
  | VNone => false
  | VBool b => b
  | VInt n => negb (n =? 0)%Z
  | VStr s => negb (String.eqb s "")
  | VList xs => match xs with [] => false | _ => true end
  | VDict kvs => match kvs with [] => false | _ => true end
  | VObj _ => true
  end.

(** [v is not None] *)
Definition is_not_None (v : value) : bool :=
  match v with VNone => false | _ => true end.

(** ** Exceptions *)

Inductive exn :=
  | AttributeError (attr : string)
  | TypeError (msg : string)
  | CollaboratorError (msg : string).

Inductive result (A : Type) :=
  | Ok (a : A)
  | Raise (e : exn).
Arguments Ok {A} a.
Arguments Raise {A} e.

#[global] Instance result_ret : MRet result := fun A a => Ok a.
#[global] Instance result_bind : MBind result := fun A B f m =>
  match m with
  | Ok a => f a
  | Raise e => Raise e
  end.

(** [c and rhs] where only [rhs] can raise: [rhs] is not evaluated when
    [c] is false. *)
Definition py_and (c : bool) (rhs : result bool) : result bool :=
  if c then rhs else Ok false.

(** ** The view and the schema instance *)

(** The view a schema instance is bound to.  [determine_version] is the
    version-negotiation collaborator (a method of the view); it returns the
    pair [(version, scheme)] or raises. *)
Record View := {
  view_request : value;
  view_kwargs : list (string * value);
  determine_version :
    value -> list (string * value) -> result (option string * value);
}.

(** A schema instance ([self]).  [method] is the instance attribute written
    by [get_operation]; it does not exist before the first such call.
    [attrs] holds whatever else the base class keeps on the instance. *)
Record Inst := {
  view : View;
  method : option string;
  attrs : gmap string value;
}.

(** [self.method = method] *)
Definition set_method (self : Inst) (m : string) : Inst :=
  {| view := view self; method := Some m; attrs := attrs self |}.

(** [self.method] *)
Definition get_method (self : Inst) : result string :=
  match method self with
  | Some m => Ok m
  | None => Raise (AttributeError "method")
  end.

(** ** Layers: the closure of one [extend_schema] call *)

Record Layer := {
  operation_id : value;
  parameters : value;
  request : value;
  responses : value;
  auth : value;
  description : value;
  deprecated : value;
  tags : value;
  exclude : value;
  operation : value;
  methods : option (list string);
  versions : option (list (option string));
}.

(** The defaults of the signature of [extend_schema]. *)
Definition no_overrides : Layer :=
  {| operation_id := VNone; parameters := VNone; request := VNone;
     responses := VNone; auth := VNone; description := VNone;
     deprecated := VNone; tags := VNone; exclude := VBool false;
     operation := VNone; methods := None; versions := None |}.

(** [is_in_scope]: the version is negotiated first (and always), then the
    two membership tests are made; [ext_schema.method] is only read when
    [methods] is given. *)
Definition is_in_scope (l : Layer) (ext_schema : Inst) : result bool :=
  '(version, _) ← determine_version (view ext_schema)
                    (view_request (view ext_schema))
                    (view_kwargs (view ext_schema));
  let version_scope :=
    match versions l with
    | None => true
    | Some vs => bool_decide (version ∈ vs)
    end in
  method_scope ←
    match methods l with
    | None => Ok true
    | Some ms => m ← get_method ext_schema; Ok (bool_decide (m ∈ ms))
    end;
  Ok (method_scope && version_scope).

(** ** Schema classes *)

(** The virtual methods of a schema instance, as seen by a base class that
    calls [self.get_tags()] and the like: the most derived definitions. *)
Record Methods := {
  m_get_operation_id : Inst -> result value;
  m_get_override_parameters : Inst -> result value;
  m_get_auth : Inst -> result value;
  m_get_request_serializer : Inst -> result value;
  m_get_response_serializers : Inst -> result value;
  m_get_description : Inst -> result value;
  m_is_deprecated : Inst -> result value;
  m_get_tags : Inst -> result value;
}.

(** A schema class that was not synthesised by [extend_schema]: the
    default class of the settings or one set by hand.  Its code is not part
    of this module, so its methods are taken as they come.  [get_operation]
    receives the virtual methods of [self], its arguments, and may write
    attributes of the instance. *)
Record BaseSchema := {
  base_get_operation :
    Methods -> Inst -> string -> value -> string -> value ->
    result value * Inst;
  base_get_operation_id : Inst -> result value;
  base_get_override_parameters : Inst -> result value;
  base_get_auth : Inst -> result value;
  base_get_request_serializer : Inst -> result value;
  base_get_response_serializers : Inst -> result value;
  base_get_description : Inst -> result value;
  base_is_deprecated : Inst -> result value;
  base_get_tags : Inst -> result value;
}.

(** [class ExtendedSchema(BaseSchema)]: one layer on top of the class that
    was found at the decorated object. *)
Inductive Schema :=
  | Base (b : BaseSchema)
  | Extended (l : Layer) (super : Schema).

(** The pattern shared by the field methods:
    [if cond and is_in_scope(self): return v] and otherwise
    [return super().m()]. *)
Definition override_or_super (cond : bool) (l : Layer) (self : Inst)
    (v : value) (super_call : result value) : result value :=
  in_scope ← py_and cond (is_in_scope l self);
  if in_scope : bool then Ok v else super_call.

Fixpoint get_operation_id (cls : Schema) (self : Inst) : result value :=
  match cls with
  | Base b => base_get_operation_id b self
  | Extended l super =>
      override_or_super (truthy (operation_id l)) l self
        (operation_id l) (get_operation_id super self)
  end.

Fixpoint get_override_parameters (cls : Schema) (self : Inst)
    : result value :=
  match cls with
  | Base b => base_get_override_parameters b self
  | Extended l super =>
      override_or_super (truthy (parameters l)) l self
        (parameters l) (get_override_parameters super self)
  end.

Fixpoint get_auth (cls : Schema) (self : Inst) : result value :=
  match cls with
  | Base b => base_get_auth b self
  | Extended l super =>
      override_or_super (truthy (auth l)) l self
        (auth l) (get_auth super self)
  end.

Fixpoint get_request_serializer (cls : Schema) (self : Inst)
    : result value :=
  match cls with
  | Base b => base_get_request_serializer b self
  | Extended l super =>
      override_or_super (truthy (request l)) l self
        (request l) (get_request_serializer super self)
  end.

Fixpoint get_response_serializers (cls : Schema) (self : Inst)
    : result value :=
  match cls with
  | Base b => base_get_response_serializers b self
  | Extended l super =>
      override_or_super (truthy (responses l)) l self
        (responses l) (get_response_serializers super self)
  end.

Fixpoint get_description (cls : Schema) (self : Inst) : result value :=
  match cls with
  | Base b => base_get_description b self
  | Extended l super =>
      override_or_super (truthy (description l)) l self
        (description l) (get_description super self)
  end.

Fixpoint is_deprecated (cls : Schema) (self : Inst) : result value :=
  match cls with
  | Base b => base_is_deprecated b self
  | Extended l super =>
      override_or_super (truthy (deprecated l)) l self
        (deprecated l) (is_deprecated super self)
  end.

Fixpoint get_tags (cls : Schema) (self : Inst) : result value :=
  match cls with
  | Base b => base_get_tags b self
  | Extended l super =>
      override_or_super (is_not_None (tags l)) l self
        (tags l) (get_tags super self)
  end.

(** The method table of an instance of [cls]. *)
Definition methods_of (cls : Schema) : Methods :=
  {| m_get_operation_id := get_operation_id cls;
     m_get_override_parameters := get_override_parameters cls;
     m_get_auth := get_auth cls;
     m_get_request_serializer := get_request_serializer cls;
     m_get_response_serializers := get_response_serializers cls;
     m_get_description := get_description cls;
     m_is_deprecated := is_deprecated cls;
     m_get_tags := get_tags cls |}.

(** [get_operation] as defined in class [cls], run on an instance [self]
    whose own class has the method table [vt].  Every layer writes
    [self.method] before anything else; the write stays when the call
    raises. *)
Fixpoint get_operation_in (cls : Schema) (vt : Methods) (self : Inst)
    (path : string) (path_regex : value) (method : string)
    (registry : value) : result value * Inst :=
  match cls with
  | Base b => base_get_operation b vt self path path_regex method registry
  | Extended l super =>
      let self := set_method self method in
      match py_and (truthy (exclude l)) (is_in_scope l self) with
      | Raise e => (Raise e, self)
      | Ok true => (Ok VNone, self)
      | Ok false =>
          match py_and (is_not_None (operation l)) (is_in_scope l self) with
          | Raise e => (Raise e, self)
          | Ok true => (Ok (operation l), self)
          | Ok false =>
              get_operation_in super vt self path path_regex method registry
          end
      end
  end.

(** [self.get_operation(path, path_regex, method, registry)] for an
    instance of [cls]. *)
Definition get_operation (cls : Schema) (self : Inst)
    (path : string) (path_regex : value) (method : string)
    (registry : value) : result value * Inst :=
  get_operation_in cls (methods_of cls) self path path_regex method registry.

(** ** Decorated objects and attachment *)

(** What may sit in a [schema] slot: a schema instance or a schema class. *)
Inductive schema_ref :=
  | SchemaInstance (cls : Schema)
  | SchemaClass (cls : Schema).

(** [if not inspect.isclass(BaseSchema): BaseSchema = BaseSchema.__class__] *)
Definition class_of (r : schema_ref) : Schema :=
  match r with
  | SchemaInstance cls => cls
  | SchemaClass cls => cls
  end.

(** A [kwargs] dictionary.  The entry under the key ['schema'] is a schema
    or missing ([None] counts as missing for [.get('schema', None)]); the
    other entries are kept as they are. *)
Record Kwargs := {
  kw_schema : option schema_ref;
  kw_others : gmap string value;
}.

(** [{'schema': ExtendedSchema}] *)
Definition schema_kwargs (ExtendedSchema : Schema) : Kwargs :=
  {| kw_schema := Some (SchemaClass ExtendedSchema); kw_others := ∅ |}.

(** [getattr(o, 'kwargs', {}).get('schema', None)] for an [o] whose
    [kwargs] attribute is [kw], if it has one. *)
Definition kwargs_get_schema (kw : option Kwargs) : option schema_ref :=
  match kw with
  | Some d => kw_schema d
  | None => None
  end.

(** [a or b] for a slot that holds a schema (true) or nothing. *)
Definition py_or {A} (a : option A) (b : A) : A :=
  match a with
  | Some x => x
  | None => b
  end.

(** A function object that a view class holds as a handler: its [kwargs]
    attribute, and whether the object accepts new attributes (a plain
    function does, a bound method or a builtin does not).  Each [kwargs]
    dictionary is held by one object. *)
Record Handler := {
  fn_kwargs : option Kwargs;
  fn_settable : bool;
}.

(** The class behind an [@api_view] function ([f.cls]): its [kwargs]
    attribute, its [http_method_names] and its handler attributes, which
    refer to function objects of the heap.  Two names, and two classes, can
    refer to the same function object.  As the comment in the source says,
    a [cls] attribute signals a class made by [as_view()]: it accepts
    attributes and has [http_method_names]. *)
Record ViewClass := {
  cls_kwargs : option Kwargs;
  http_method_names : list string;
  cls_handlers : gmap string nat;
}.

(** The heap of the objects the decorator writes to without returning
    them: the function objects and the view classes, by identity. *)
Record World := {
  functions : gmap nat Handler;
  classes : gmap nat ViewClass;
}.

(** A function object no one has written to has no [kwargs]. *)
Definition function_of (w : World) (fid : nat) : Handler :=
  default {| fn_kwargs := None; fn_settable := true |} (functions w !! fid).

(** The decorated object [f] in its heap: whether it is a class or a
    callable, whether it can be a base class ([class ExtendedView(f)]) and
    whether it accepts new attributes ([f.kwargs = {}]), and the three
    attributes the decorator looks at; [cls] refers to a class of the
    heap.  The attributes are typed: a [schema] slot holds a schema or
    nothing, a [kwargs] attribute is a dictionary, and the schema found can
    be subclassed and instantiated.  The decorated object is not itself
    one of the handler functions of the heap. *)
Record Site := {
  isclass : bool;
  callable : bool;
  subclassable : bool;
  settable : bool;
  f_schema : option schema_ref;
  f_kwargs : option Kwargs;
  f_cls_ref : option nat;
  world : World;
}.

(** [getattr(f, 'cls', None)], with the identity of the class. *)
Definition f_cls_entry (f : Site) : option (nat * ViewClass) :=
  cid ← f_cls_ref f; c ← classes (world f) !! cid; Some (cid, c).

(** [getattr(f, 'cls', None)] *)
Definition f_cls (f : Site) : option ViewClass := snd <$> f_cls_entry f.

(** The expression bound to [BaseSchema], before the [isclass] test. *)
Definition find_base_schema (DEFAULT_SCHEMA_CLASS : schema_ref) (f : Site)
    : schema_ref :=
  py_or (f_schema f)
    (py_or (kwargs_get_schema (f_kwargs f))
       (py_or (kwargs_get_schema
                 (match f_cls f with
                  | Some c => cls_kwargs c
                  | None => None
                  end))
          DEFAULT_SCHEMA_CLASS)).

(** [for method in f.cls.http_method_names:
       setattr(getattr(f.cls, method), 'kwargs', {'schema': ExtendedSchema})]
    on the heap.  [getattr] raises for a name without handler, [setattr]
    for a function object that accepts no attribute; what was written
    before stays. *)
Fixpoint set_handlers_kwargs (names : list string) (ExtendedSchema : Schema)
    (handlers : gmap string nat) (w : World) : result unit * World :=
  match names with
  | [] => (Ok (), w)
  | method :: names =>
      match handlers !! method with
      | None => (Raise (AttributeError method), w)
      | Some fid =>
          if fn_settable (function_of w fid) then
            set_handlers_kwargs names ExtendedSchema handlers
              {| functions :=
                   <[fid := {| fn_kwargs := Some (schema_kwargs ExtendedSchema);
                               fn_settable := true |}]> (functions w);
                 classes := classes w |}
          else (Raise (AttributeError "kwargs"), w)
      end
  end.

(** The class [ExtendedSchema] that [decorator(f)] defines. *)
Definition ExtendedSchema_for (DEFAULT_SCHEMA_CLASS : schema_ref)
    (l : Layer) (f : Site) : Schema :=
  Extended l (class_of (find_base_schema DEFAULT_SCHEMA_CLASS f)).

(** [decorator(f)] inside [extend_schema], for the closure [l]: what it
    returns or raises, and the heap it leaves. *)
Definition decorator_run (DEFAULT_SCHEMA_CLASS : schema_ref) (l : Layer)
    (f : Site) : result Site * World :=
  let ExtendedSchema := ExtendedSchema_for DEFAULT_SCHEMA_CLASS l f in
  if isclass f then
    (* class ExtendedView(f): schema = ExtendedSchema() *)
    if subclassable f then
      (Ok {| isclass := true; callable := callable f;
             subclassable := true; settable := true;
             f_schema := Some (SchemaInstance ExtendedSchema);
             f_kwargs := f_kwargs f; f_cls_ref := f_cls_ref f;
             world := world f |},
       world f)
    else (Raise (TypeError "base"), world f)
  else if callable f then
    match f_cls_entry f with
    | Some (cid, c) =>
        (* setattr(f.cls, 'kwargs', {'schema': ExtendedSchema}) *)
        let w :=
          {| functions := functions (world f);
             classes :=
               <[cid := {| cls_kwargs := Some (schema_kwargs ExtendedSchema);
                           http_method_names := http_method_names c;
                           cls_handlers := cls_handlers c |}]>
                 (classes (world f)) |} in
        match set_handlers_kwargs (http_method_names c) ExtendedSchema
                (cls_handlers c) w with
        | (Ok _, w) =>
            (Ok {| isclass := false; callable := true;
                   subclassable := subclassable f; settable := settable f;
                   f_schema := f_schema f; f_kwargs := f_kwargs f;
                   f_cls_ref := f_cls_ref f; world := w |},
             w)
        | (Raise e, w) => (Raise e, w)
        end
    | None =>
        match f_kwargs f with
        | Some d =>
            (* f.kwargs['schema'] = ExtendedSchema *)
            (Ok {| isclass := false; callable := true;
                   subclassable := subclassable f; settable := settable f;
                   f_schema := f_schema f;
                   f_kwargs := Some {| kw_schema := Some (SchemaClass ExtendedSchema);
                                       kw_others := kw_others d |};
                   f_cls_ref := f_cls_ref f; world := world f |},
             world f)
        | None =>
            (* f.kwargs = {} *)
            if settable f then
              (Ok {| isclass := false; callable := true;
                     subclassable := subclassable f; settable := settable f;
                     f_schema := f_schema f;
                     f_kwargs := Some (schema_kwargs ExtendedSchema);
                     f_cls_ref := f_cls_ref f; world := world f |},
               world f)
            else (Raise (AttributeError "kwargs"), world f)
        end
    end
  else (Ok f, world f).

(** What [decorator(f)] returns or raises. *)
Definition decorator (DEFAULT_SCHEMA_CLASS : schema_ref) (l : Layer)
    (f : Site) : result Site :=
  (decorator_run DEFAULT_SCHEMA_CLASS l f).1.

(** [extend_schema(...)]: the twelve arguments become the closure of the
    decorator it returns. *)
Definition extend_schema (DEFAULT_SCHEMA_CLASS : schema_ref)
    (operation_id parameters request responses auth description deprecated
     tags exclude operation : value)
    (methods : option (list string))
    (versions : option (list (option string))) : Site -> result Site :=
  decorator DEFAULT_SCHEMA_CLASS
    {| operation_id := operation_id; parameters := parameters;
       request := request; responses := responses; auth := auth;
       description := description; deprecated := deprecated; tags := tags;
       exclude := exclude; operation := operation; methods := methods;
       versions := versions |}.

(** The schema class a framework finds at a decorated object: the one the
    next [extend_schema] would extend. *)
Definition attached_schema (DEFAULT_SCHEMA_CLASS : schema_ref) (f : Site)
    : Schema :=
  class_of (find_base_schema DEFAULT_SCHEMA_CLASS f).

(** ** The eight fields, uniformly *)

Inductive Field :=
  | FOperationId
  | FParameters
  | FAuth
  | FRequest
  | FResponses
  | FDescription
  | FDeprecated
  | FTags.

(** The closure variable a field method looks at. *)
Definition field_value (fld : Field) (l : Layer) : value :=
  match fld with
  | FOperationId => operation_id l
  | FParameters => parameters l
  | FAuth => auth l
  | FRequest => request l
  | FResponses => responses l
  | FDescription => description l
  | FDeprecated => deprecated l
  | FTags => tags l
  end.

(** The first operand of the guard of a field method: [tags is not None]
    for the tags, the truth value of the variable for the seven others. *)
Definition declares (fld : Field) (l : Layer) : bool :=
  match fld with
  | FTags => is_not_None (tags l)
  | _ => truthy (field_value fld l)
  end.

(** The method of [ExtendedSchema] that resolves a field. *)
Definition get_field (fld : Field) : Schema -> Inst -> result value :=
  match fld with
  | FOperationId => get_operation_id
  | FParameters => get_override_parameters
  | FAuth => get_auth
  | FRequest => get_request_serializer
  | FResponses => get_response_serializers
  | FDescription => get_description
  | FDeprecated => is_deprecated
  | FTags => get_tags
  end.

(** The same method of a base class. *)
Definition base_field (fld : Field) : BaseSchema -> Inst -> result value :=
  match fld with
  | FOperationId => base_get_operation_id
  | FParameters => base_get_override_parameters
  | FAuth => base_get_auth
  | FRequest => base_get_request_serializer
  | FResponses => base_get_response_serializers
  | FDescription => base_get_description
  | FDeprecated => base_is_deprecated
  | FTags => base_get_tags
  end.

(** A layer with one closure variable replaced. *)
Definition set_field (fld : Field) (v : value) (l : Layer) : Layer :=
  {| operation_id := if fld is FOperationId then v else operation_id l;
     parameters := if fld is FParameters then v else parameters l;
     request := if fld is FRequest then v else request l;
     responses := if fld is FResponses then v else responses l;
     auth := if fld is FAuth then v else auth l;
     description := if fld is FDescription then v else description l;
     deprecated := if fld is FDeprecated then v else deprecated l;
     tags := if fld is FTags then v else tags l;
     exclude := exclude l; operation := operation l;
     methods := methods l; versions := versions l |}.

Definition set_exclude (v : value) (l : Layer) : Layer :=
  {| operation_id := operation_id l; parameters := parameters l;
     request := request l; responses := responses l; auth := auth l;
     description := description l; deprecated := deprecated l;
     tags := tags l; exclude := v; operation := operation l;
     methods := methods l; versions := versions l |}.

Definition set_operation (v : value) (l : Layer) : Layer :=
  {| operation_id := operation_id l; parameters := parameters l;
     request := request l; responses := responses l; auth := auth l;
     description := description l; deprecated := deprecated l;
     tags := tags l; exclude := exclude l; operation := v;
     methods := methods l; versions := versions l |}.

Definition set_scope (ms : option (list string))
    (vs : option (list (option string))) (l : Layer) : Layer :=
  {| operation_id := operation_id l; parameters := parameters l;
     request := request l; responses := responses l; auth := auth l;
     description := description l; deprecated := deprecated l;
     tags := tags l; exclude := exclude l; operation := operation l;
     methods := ms; versions := vs |}.

(** The class obtained by decorating with the layers of [ls], the last
    one first: the head of [ls] is the outermost layer. *)
Definition stack (ls : list Layer) (inner : Schema) : Schema :=
  foldr Extended inner ls.

(** The base class at the bottom of a chain. *)
Fixpoint base_of (cls : Schema) : BaseSchema :=
  match cls with
  | Base b => b
  | Extended _ super => base_of super
  end.

(** The layers of a chain, outermost first. *)
Fixpoint layers_of (cls : Schema) : list Layer :=
  match cls with
  | Base _ => []
  | Extended l super => l :: layers_of super
  end.

(** A layer that lets a field method go on to [super()]: its guard's first
    operand is false, or the layer is out of scope. *)
Definition defers (fld : Field) (self : Inst) (l : Layer) : Prop :=
  declares fld l = false \/ is_in_scope l self = Ok false.

(** A layer that lets [get_operation] go on to [super()]. *)
Definition passes (self : Inst) (l : Layer) : Prop :=
  (truthy (exclude l) = false \/ is_in_scope l self = Ok false) /\
  (operation l = VNone \/ is_in_scope l self = Ok false).

(** Two layers that agree on one field and on their scope. *)
Definition same_on (fld : Field) (l1 l2 : Layer) : Prop :=
  field_value fld l1 = field_value fld l2 /\
  methods l1 = methods l2 /\ versions l1 = versions l2.

(** What repeated resolution asks of a base class, for instances with the
    method table [vt]: the result of its [get_operation] depends on the
    instance only through the view it is bound to (the attributes an
    earlier call left behind are overwritten before they are read), and the
    binding to the view is kept. *)
Definition base_repeatable (b : BaseSchema) (vt : Methods) : Prop :=
  forall self self' path path_regex m registry,
    view self = view self' ->
    (base_get_operation b vt self path path_regex m registry).1
      = (base_get_operation b vt self' path path_regex m registry).1 /\
    view (base_get_operation b vt self path path_regex m registry).2
      = view self.

(** A schema instance as an object: its class, which fixes its methods
    and the layers they close over, and its attributes. *)
Record SchemaObject := {
  obj_class : Schema;
  obj_self : Inst;
}.

(** [o.get_operation(path, path_regex, method, registry)]: what the call
    returns or raises, and the object afterwards.  The methods bind
    attributes of the instance; no statement of the source rebinds a
    variable of the enclosing [extend_schema] call or the class of the
    instance. *)
Definition call_get_operation (o : SchemaObject) (path : string)
    (path_regex : value) (method : string) (registry : value)
    : result value * SchemaObject :=
  let r := get_operation (obj_class o) (obj_self o) path path_regex method
             registry in
  (r.1, {| obj_class := obj_class o; obj_self := r.2 |}).

(** ** The base introspection engine *)

(** Modelled from the spec: the class behind [DEFAULT_SCHEMA_CLASS] is not
    part of this module.  Section 6 of the specification describes it as a
    per-field discovery that never raises, and section 3 lists the fields of
    the description it assembles.  [describe] assembles them through the
    methods of [self], so that the overrides of the layers are seen. *)
Definition describe (vt : Methods) (self : Inst) : result value :=
  operationId ← m_get_operation_id vt self;
  params ← m_get_override_parameters vt self;
  req ← m_get_request_serializer vt self;
  resp ← m_get_response_serializers vt self;
  security ← m_get_auth vt self;
  text ← m_get_description vt self;
  depr ← m_is_deprecated vt self;
  tgs ← m_get_tags vt self;
  Ok (VDict [(VStr "operationId", operationId);
             (VStr "parameters", params);
             (VStr "request", req);
             (VStr "responses", resp);
             (VStr "auth", security);
             (VStr "description", text);
             (VStr "deprecated", depr);
             (VStr "tags", tgs)]).

(** Modelled from the spec: a base class whose discovery of each field is
    [discover]. *)
Definition AutoSchema (discover : Field -> Inst -> value) : BaseSchema :=
  {| base_get_operation := fun vt self path path_regex method registry =>
       let self := set_method self method in (describe vt self, self);
     base_get_operation_id := fun self => Ok (discover FOperationId self);
     base_get_override_parameters := fun self => Ok (discover FParameters self);
     base_get_auth := fun self => Ok (discover FAuth self);
     base_get_request_serializer := fun self => Ok (discover FRequest self);
     base_get_response_serializers := fun self => Ok (discover FResponses self);
     base_get_description := fun self => Ok (discover FDescription self);
     base_is_deprecated := fun self => Ok (discover FDeprecated self);
     base_get_tags := fun self => Ok (discover FTags self) |}.

(** ** Sample objects *)

(** A discovery in the style of the framework: the tags come from the
    path, the deprecation flag is off, the rest is empty. *)
Definition sample_discover (fld : Field) (self : Inst) : value :=
  match fld with
  | FOperationId => VStr "pets_list"
  | FParameters => VList []
  | FAuth => VList []
  | FRequest => VNone
  | FResponses => VObj "PetSerializer"
  | FDescription => VStr ""
  | FDeprecated => VBool false
  | FTags => VList [VStr "pets"]
  end.

Definition sample_base : BaseSchema := AutoSchema sample_discover.

Definition sample_default : schema_ref := SchemaClass (Base sample_base).

(** A view without versioning: [determine_version] returns [(None, None)]. *)
Definition unversioned_view : View :=
  {| view_request := VObj "request"; view_kwargs := [];
     determine_version := fun _ _ => Ok (None, VNone) |}.

(** A view whose version is read from the request; a request that carries
    none makes the negotiation fail. *)
Definition versioned_view (req : value) : View :=
  {| view_request := req; view_kwargs := [];
     determine_version := fun r _ =>
       match r with
       | VStr v => Ok (Some v, VObj "scheme")
       | _ => Raise (CollaboratorError "version")
       end |}.

(** A schema instance just bound to a view: no [method] attribute yet. *)
Definition fresh_instance (v : View) : Inst :=
  {| view := v; method := None; attrs := ∅ |}.

Definition empty_world : World := {| functions := ∅; classes := ∅ |}.

(** An undecorated function-based action. *)
Definition plain_callable : Site :=
  {| isclass := false; callable := true; subclassable := false;
     settable := true; f_schema := None; f_kwargs := None;
     f_cls_ref := None; world := empty_world |}.

(** An undecorated view class. *)
Definition view_class : Site :=
  {| isclass := true; callable := true; subclassable := true;
     settable := true; f_schema := None; f_kwargs := None;
     f_cls_ref := None; world := empty_world |}.

(** A function object without attributes. *)
Definition bare_function : Handler :=
  {| fn_kwargs := None; fn_settable := true |}.

(** The heap of two [@api_view] functions.  Function 0 is the handler of
    the first view, installed under "get" and under "post" as [api_view]
    does; function 2 is the handler of the second view; function 1 is the
    [options] method both classes inherit from their common base. *)
Definition api_view_world : World :=
  {| functions :=
       <[0 := bare_function]>
         (<[1 := bare_function]> (<[2 := bare_function]> ∅));
     classes :=
       <[0 := {| cls_kwargs := None;
                 http_method_names := ["get"; "post"; "options"];
                 cls_handlers :=
                   <["get" := 0]> (<["post" := 0]> (<["options" := 1]> ∅)) |}]>
         (<[1 := {| cls_kwargs := None;
                    http_method_names := ["get"; "options"];
                    cls_handlers := <["get" := 2]> (<["options" := 1]> ∅) |}]>
            ∅) |}.

(** An undecorated [@api_view] function for GET and POST. *)
Definition api_view_function : Site :=
  {| isclass := false; callable := true; subclassable := false;
     settable := true; f_schema := None; f_kwargs := None;
     f_cls_ref := Some 0; world := api_view_world |}.

(** Where each attachment shape stores the class: the [schema] attribute
    of a class, [f.cls.kwargs] of an [@api_view] function, [f.kwargs] of
    another callable. *)
Definition stored_schema (f : Site) : option schema_ref :=
  if isclass f then f_schema f
  else if callable f then
    match f_cls f with
    | Some c => kwargs_get_schema (cls_kwargs c)
    | None => kwargs_get_schema (f_kwargs f)
    end
  else None.

(** A decorated object on which the slot an attachment writes is the slot
    the next attachment reads first: a class, or a callable without a
    [schema] attribute of its own and, when it has a [cls], without a
    schema in its own [kwargs]. *)
Definition regular_site (f : Site) : Prop :=
  isclass f = true \/
  (callable f = true /\ f_schema f = None /\
   (f_cls f = None \/ kwargs_get_schema (f_kwargs f) = None)).

Definition layer_tags_a : Layer := set_field FTags (VList [VStr "a"]) no_overrides.
Definition layer_description_x : Layer :=
  set_field FDescription (VStr "x") no_overrides.

(** Layer A of the scenario: GET only, [tags=["read"]]. *)
Definition layer_A : Layer :=
  set_scope (Some ["GET"]) None
    (set_field FTags (VList [VStr "read"]) no_overrides).

(** Layer B of the scenario: unrestricted, [description="legacy"]. *)
Definition layer_B : Layer :=
  set_field FDescription (VStr "legacy") no_overrides.

Definition raw_operation : value :=
  VDict [(VStr "operationId", VStr "manual")].

Definition layer_raw : Layer := set_operation raw_operation no_overrides.
Definition layer_excluded : Layer := set_exclude (VBool true) no_overrides.

(** A raw operation and a field override in one call. *)
Definition layer_conflicting : Layer :=
  set_field FTags (VList [VStr "a"]) layer_raw.

Definition layer_v2_only : Layer :=
  set_scope None (Some [Some "v2"])
    (set_field FDescription (VStr "second edition") no_overrides).

(** [plain_callable] after [@extend_schema(description="x")], and after
    [@extend_schema(tags=["a"])] on top of it. *)
Definition callable_described : Site :=
  {| isclass := false; callable := true; subclassable := false;
     settable := true; f_schema := None;
     f_kwargs :=
       Some (schema_kwargs (Extended layer_description_x (Base sample_base)));
     f_cls_ref := None; world := empty_world |}.

Definition callable_described_tagged : Site :=
  {| isclass := false; callable := true; subclassable := false;
     settable := true; f_schema := None;
     f_kwargs :=
       Some (schema_kwargs
               (Extended layer_tags_a
                  (Extended layer_description_x (Base sample_base))));
     f_cls_ref := None; world := empty_world |}.

(** Instances in the middle of a resolution for GET and for POST. *)
Definition get_instance : Inst :=
  set_method (fresh_instance unversioned_view) "GET".
Definition post_instance : Inst :=
  set_method (fresh_instance unversioned_view) "POST".

Definition layer_no_tags : Layer := set_field FTags (VList []) no_overrides.

Definition layer_not_deprecated : Layer :=
  set_field FDeprecated (VBool false) no_overrides.
Definition layer_is_deprecated : Layer :=
  set_field FDeprecated (VBool true) no_overrides.

(** A function object after the decorator wrote its [kwargs]. *)
Definition function_with (ExtendedSchema : Schema) : Handler :=
  {| fn_kwargs := Some (schema_kwargs ExtendedSchema); fn_settable := true |}.

(** [api_view_function] after [@extend_schema(tags=["a"])]: the class of
    the first view and the functions 0 and 1 carry the new class; function
    1 is also the [options] handler of the second view. *)
Definition api_view_tagged : Site :=
  {| isclass := false; callable := true; subclassable := false;
     settable := true; f_schema := None; f_kwargs := None;
     f_cls_ref := Some 0;
     world :=
       {| functions :=
            <[0 := function_with (Extended layer_tags_a (Base sample_base))]>
              (<[1 := function_with (Extended layer_tags_a (Base sample_base))]>
                 (<[2 := bare_function]> ∅));
          classes :=
            <[0 := {| cls_kwargs :=
                        Some (schema_kwargs
                                (Extended layer_tags_a (Base sample_base)));
                      http_method_names := ["get"; "post"; "options"];
                      cls_handlers :=
                        <["get" := 0]>
                          (<["post" := 0]> (<["options" := 1]> ∅)) |}]>
              (<[1 := {| cls_kwargs := None;
                         http_method_names := ["get"; "options"];
                         cls_handlers :=
                           <["get" := 2]> (<["options" := 1]> ∅) |}]>
                 ∅) |} |}.

(** [plain_callable] after
    [@extend_schema(tags=["a"], operation={"operationId": "manual"})]. *)
Definition callable_conflicting : Site :=
  {| isclass := false; callable := true; subclassable := false;
     settable := true; f_schema := None;
     f_kwargs :=
       Some (schema_kwargs (Extended layer_conflicting (Base sample_base)));
     f_cls_ref := None; world := empty_world |}.




(** A class that cannot be a base class, and a bound method: a callable
    that accepts no new attribute. *)
Definition final_class : Site :=
  {| isclass := true; callable := true; subclassable := false;
     settable := false; f_schema := None; f_kwargs := None;
     f_cls_ref := None; world := empty_world |}.

Definition bound_method : Site :=
  {| isclass := false; callable := true; subclassable := false;
     settable := false; f_schema := None; f_kwargs := None;
     f_cls_ref := None; world := empty_world |}.

(** The second [@api_view] function of [api_view_world], in the heap the
    decoration of the first one left. *)
Definition other_api_view_after : Site :=
  {| isclass := false; callable := true; subclassable := false;
     settable := true; f_schema := None; f_kwargs := None;
     f_cls_ref := Some 1; world := world api_view_tagged |}.

(** ** The polymorphic proxy *)

Module Polymorphic.

(** Modelled from the spec: a shape is known here by its name and the
    names of its fields (glossary: "a structural description of a
    payload"); the serializer classes themselves are not part of this
    module. *)
Record Shape := {
  shape_name : string;
  shape_fields : list string;
}.

(** [PolymorphicProxySerializer]: the three attributes [__init__]
    stores. *)
Record PolymorphicProxySerializer := {
  component_name : string;
  serializers : list (string * Shape);
  resource_type_field_name : string;
}.

(** [__init__]: the arguments are stored as they come. *)
Definition __init__ (component_name : string)
    (serializers : list (string * Shape))
    (resource_type_field_name : string) : PolymorphicProxySerializer :=
  {| component_name := component_name;
     serializers := serializers;
     resource_type_field_name := resource_type_field_name |}.

(** Modelled from the spec: the error of section 7, with the operation
    identity and the label of the offending variant. *)
Inductive RenderError :=
  | DiscriminatorFieldMissing (operation : string) (label : string).

(** Modelled from the spec: the fragment of section 4.5, one component
    reference per variant and the discriminator mapping. *)
Record Fragment := {
  one_of : list string;
  property_name : string;
  mapping : list (string * string);
}.

(** Modelled from the spec: the label of the first variant whose shape
    has no field named [field]. *)
Fixpoint first_missing (field : string) (variants : list (string * Shape))
    : option string :=
  match variants with
  | [] => None
  | (label, shape) :: rest =>
      if bool_decide (field ∈ shape_fields shape)
      then first_missing field rest
      else Some label
  end.

(** Modelled from the spec: the resolution of a descriptor for one
    operation (section 4.5: the invariant is checked at resolution time). *)
Definition resolve (operation : string) (d : PolymorphicProxySerializer)
    : RenderError + Fragment :=
  match first_missing (resource_type_field_name d) (serializers d) with
  | Some label => inl (DiscriminatorFieldMissing operation label)
  | None =>
      inr {| one_of := (fun v => shape_name v.2) <$> serializers d;
             property_name := resource_type_field_name d;
             mapping := (fun v => (v.1, shape_name v.2)) <$> serializers d |}
  end.

(** Modelled from the spec: a generation pass (section 7: errors are per
    operation and collected next to the descriptions that resolved). *)
Definition generate (ops : list (string * PolymorphicProxySerializer))
    : list (string * (RenderError + Fragment)) :=
  (fun op => (op.1, resolve op.1 op.2)) <$> ops.

Definition CatShape : Shape :=
  {| shape_name := "Cat"; shape_fields := ["kind"; "name"; "lives"] |}.
Definition DogShape : Shape :=
  {| shape_name := "Dog"; shape_fields := ["name"; "breed"] |}.
Definition BirdShape : Shape :=
  {| shape_name := "Bird"; shape_fields := ["kind"; "wingspan"] |}.

Definition pets : PolymorphicProxySerializer :=
  __init__ "Pet" [("cat", CatShape); ("dog", DogShape)] "kind".
Definition flyers : PolymorphicProxySerializer :=
  __init__ "Flyer" [("bird", BirdShape)] "kind".

End Polymorphic.

(** ** Stacked decorators *)

(** Decorators written one above the other are applied from the bottom
    one up, each to the object the one below returned: [ls] lists the
    layers in the order of application. *)
Fixpoint decorate_all (DEFAULT_SCHEMA_CLASS : schema_ref) (ls : list Layer)
    (f : Site) : result Site :=
  match ls with
  | [] => Ok f
  | l :: ls =>
      f' ← decorator DEFAULT_SCHEMA_CLASS l f;
      decorate_all DEFAULT_SCHEMA_CLASS ls f'
  end.

(** A layer that declares no override at all; its scope is free. *)
Definition declares_nothing (l : Layer) : Prop :=
  (forall fld, declares fld l = false) /\
  truthy (exclude l) = false /\ operation l = VNone.

(** ** Field and serializer annotations *)

(** The objects decorated by [extend_schema_field] and
    [extend_schema_serializer] are functions and classes.  What the
    decorators see of an object is whether its own namespace binds
    [_spectacular_annotation], and to which dictionary, and, for a class,
    the classes that follow it in its method resolution order: a class
    that does not bind the attribute itself inherits the dictionary of the
    first of them that does.  Dictionaries live in a heap, so that two
    objects can hold the same one. *)
Record PyObject := {
  own_annotation : option nat;
  mro_tail : list string;
}.

Record Store := {
  objects : gmap string PyObject;
  dicts : gmap nat (gmap string value);
}.

(** An object the store does not list has no attribute of interest and no
    base class of interest. *)
Definition object_of (s : Store) (o : string) : PyObject :=
  default {| own_annotation := None; mro_tail := [] |} (objects s !! o).

(** The first class of [names] whose own namespace binds the attribute. *)
Fixpoint first_own (s : Store) (names : list string) : option nat :=
  match names with
  | [] => None
  | c :: names =>
      match own_annotation (object_of s c) with
      | Some d => Some d
      | None => first_own s names
      end
  end.

(** The dictionary [o._spectacular_annotation] evaluates to, if the
    attribute exists: [hasattr] is [is_Some] of this. *)
Definition find_annotation (s : Store) (o : string) : option nat :=
  first_own s (o :: mro_tail (object_of s o)).

(** [if not hasattr(f, '_spectacular_annotation'):
       f._spectacular_annotation = {}], followed by the evaluation of
    [f._spectacular_annotation]. *)
Definition ensure_annotation (s : Store) (f : string) : nat * Store :=
  match find_annotation s f with
  | Some d => (d, s)
  | None =>
      let d := fresh (dom (dicts s)) in
      (d, {| objects :=
               <[f := {| own_annotation := Some d;
                         mro_tail := mro_tail (object_of s f) |}]> (objects s);
             dicts := <[d := ∅]> (dicts s) |})
  end.

(** [d[key] = v] for the dictionary at [d]. *)
Definition setitem (d : nat) (key : string) (v : value) (s : Store) : Store :=
  {| objects := objects s; dicts := alter (<[key := v]>) d (dicts s) |}.

(** [extend_schema_field(field)(f)]; the decorator returns [f] itself, so
    only the store changes. *)
Definition extend_schema_field (field : value) (f : string) (s : Store)
    : Store :=
  let '(d, s) := ensure_annotation s f in
  setitem d "field" field s.

(** [extend_schema_serializer(many)(klass)]; the decorator returns
    [klass] itself. *)
Definition extend_schema_serializer (many : value) (klass : string)
    (s : Store) : Store :=
  let '(d, s) := ensure_annotation s klass in
  if is_not_None many then setitem d "many" many s else s.

(** [getattr(o, '_spectacular_annotation', None)], as a dictionary. *)
Definition annotation (s : Store) (o : string) : option (gmap string value) :=
  d ← find_annotation s o; dicts s !! d.

(** Every bound attribute points to a dictionary of the heap. *)
Definition store_wf (s : Store) : Prop :=
  forall o obj d,
    objects s !! o = Some obj -> own_annotation obj = Some d ->
    is_Some (dicts s !! d).

(** A serializer class decorated with [many=True] and an undecorated
    subclass of it. *)
Definition sample_store : Store :=
  {| objects :=
       <["PetSerializer" := {| own_annotation := Some 0; mro_tail := [] |}]>
         (<["CatSerializer" :=
              {| own_annotation := None; mro_tail := ["PetSerializer"] |}]> ∅);
     dicts := <[0 := <["many" := VBool true]> ∅]> ∅ |}.

(** An [@api_view] function whose class lists a handler it does not
    have. *)
Definition api_view_broken : Site :=
  {| isclass := false; callable := true; subclassable := false;
     settable := true; f_schema := None; f_kwargs := None;
     f_cls_ref := Some 0;
     world :=
       {| functions := <[0 := bare_function]> ∅;
          classes :=
            <[0 := {| cls_kwargs := None;
                      http_method_names := ["get"; "put"; "patch"];
                      cls_handlers := <["get" := 0]> ∅ |}]> ∅ |} |}.

Definition layer_never : Layer := set_scope (Some []) None layer_B.

(** * Properties *)

(** ** The scope predicate *)

Lemma set_method_twice self m m' :
  set_method (set_method self m) m' = set_method self m'.
Proof. reflexivity. Qed.

Lemma view_set_method self m : view (set_method self m) = view self.
Proof. reflexivity. Qed.

(** The outcome of [is_in_scope] spelled out by cases on the negotiation. *)
Lemma is_in_scope_unfold l self :
  is_in_scope l self =
    match determine_version (view self) (view_request (view self))
            (view_kwargs (view self)) with
    | Raise e => Raise e
    | Ok (version, _) =>
        match methods l with
        | None =>
            Ok (match versions l with
                | None => true
                | Some vs => bool_decide (version ∈ vs)
                end)
        | Some ms =>
            match method self with
            | None => Raise (AttributeError "method")
            | Some m =>
                Ok (bool_decide (m ∈ ms) &&
                    match versions l with
                    | None => true
                    | Some vs => bool_decide (version ∈ vs)
                    end)
            end
        end
    end.
Proof.
  unfold is_in_scope, get_method.
  destruct (determine_version _ _ _) as [[version scheme]|e]; simpl; [|done].
  destruct (methods l) as [ms|]; simpl; [|done].
  by destruct (method self).
Qed.

(** The scope of a layer only depends on its [methods] and [versions]. *)
Lemma is_in_scope_same_scope l1 l2 self :
  methods l1 = methods l2 -> versions l1 = versions l2 ->
  is_in_scope l1 self = is_in_scope l2 self.
Proof. intros Hm Hv. rewrite !is_in_scope_unfold, Hm, Hv. done. Qed.

(** C4. A layer is in scope exactly when the version negotiation of the
    view returns a version, [methods] is unset or contains the method of
    the instance, and [versions] is unset or contains that version.  Both
    restrictions are unset by default.  The version is the one the view
    negotiates when the predicate is evaluated: the same layer is in scope
    for one request and out of scope for another. *)
Theorem is_in_scope_spec :
  (forall l self,
     is_in_scope l self = Ok true <->
     exists version scheme,
       determine_version (view self) (view_request (view self))
         (view_kwargs (view self)) = Ok (version, scheme) /\
       (methods l = None \/
        exists ms m, methods l = Some ms /\ method self = Some m /\ m ∈ ms) /\
       (versions l = None \/
        exists vs, versions l = Some vs /\ version ∈ vs)) /\
  (methods no_overrides = None /\ versions no_overrides = None) /\
  (is_in_scope layer_v2_only
     (set_method (fresh_instance (versioned_view (VStr "v2"))) "GET") = Ok true /\
   is_in_scope layer_v2_only
     (set_method (fresh_instance (versioned_view (VStr "v1"))) "GET") = Ok false).
Proof.
  split; [|by split].
  intros l self. rewrite is_in_scope_unfold. split.
  - destruct (determine_version _ _ _) as [[version scheme]|e]; [|done].
    intros H. exists version, scheme. split; [done|].
    destruct (methods l) as [ms|].
    + destruct (method self) as [m|]; [|done].
      injection H as H. apply andb_true_iff in H as [Hm Hv].
      apply bool_decide_eq_true in Hm. split; [right; eauto|].
      destruct (versions l) as [vs|]; [|by left].
      apply bool_decide_eq_true in Hv. right; eauto.
    + injection H as H. split; [by left|].
      destruct (versions l) as [vs|]; [|by left].
      apply bool_decide_eq_true in H. right; eauto.
  - intros (version & scheme & -> & Hm & Hv).
    assert (match versions l with
            | Some vs => bool_decide (version ∈ vs)
            | None => true
            end = true) as ->.
    { destruct Hv as [-> | (vs & -> & Hin)]; [done|].
      by apply bool_decide_eq_true. }
    destruct Hm as [-> | (ms & m & -> & -> & Hin)]; [done|].
    by rewrite bool_decide_eq_true_2.
Qed.

(** ** Field methods *)

Lemma override_or_super_undeclared l self v k :
  override_or_super false l self v k = k.
Proof. reflexivity. Qed.

Lemma override_or_super_out_of_scope c l self v k :
  is_in_scope l self = Ok false -> override_or_super c l self v k = k.
Proof. intros H. unfold override_or_super. destruct c; simpl; by rewrite ?H. Qed.

Lemma override_or_super_in_scope l self v k :
  is_in_scope l self = Ok true -> override_or_super true l self v k = Ok v.
Proof. intros H. unfold override_or_super. simpl. by rewrite H. Qed.

(** The eight methods of [ExtendedSchema] are instances of one pattern. *)
Lemma get_field_Extended fld l super self :
  get_field fld (Extended l super) self =
    override_or_super (declares fld l) l self (field_value fld l)
      (get_field fld super self).
Proof. by destruct fld. Qed.

Lemma get_field_Base fld b self :
  get_field fld (Base b) self = base_field fld b self.
Proof. by destruct fld. Qed.

Lemma get_field_defers fld l super self :
  defers fld self l ->
  get_field fld (Extended l super) self = get_field fld super self.
Proof.
  intros [H|H]; rewrite get_field_Extended.
  - rewrite H. apply override_or_super_undeclared.
  - by apply override_or_super_out_of_scope.
Qed.

Lemma get_field_wins fld l super self :
  declares fld l = true -> is_in_scope l self = Ok true ->
  get_field fld (Extended l super) self = Ok (field_value fld l).
Proof.
  intros Hd Hs. rewrite get_field_Extended, Hd.
  by apply override_or_super_in_scope.
Qed.

Lemma stack_app ls1 ls2 inner :
  stack (ls1 ++ ls2) inner = stack ls1 (stack ls2 inner).
Proof. apply foldr_app. Qed.

Lemma get_field_stack_defers fld ls inner self :
  Forall (defers fld self) ls ->
  get_field fld (stack ls inner) self = get_field fld inner self.
Proof.
  induction 1 as [|l ls Hl _ IH]; [done|].
  simpl. by rewrite get_field_defers.
Qed.

Lemma out_of_scope_defers fld self ls :
  Forall (fun l => is_in_scope l self = Ok false) ls ->
  Forall (defers fld self) ls.
Proof. intros H. eapply Forall_impl; [exact H|]. intros l Hl. by right. Qed.

(** The result for one field is a function of that field's declarations
    and of the scopes. *)
Lemma get_field_same_on fld ls1 ls2 inner self :
  Forall2 (same_on fld) ls1 ls2 ->
  get_field fld (stack ls1 inner) self = get_field fld (stack ls2 inner) self.
Proof.
  induction 1 as [|l1 l2 ls1 ls2 (Hv & Hm & Hvs) _ IH]; [done|].
  simpl. rewrite !get_field_Extended, IH.
  assert (declares fld l1 = declares fld l2) as ->.
  { destruct fld; simpl in *; by rewrite Hv. }
  rewrite Hv. unfold override_or_super.
  by rewrite (is_in_scope_same_scope l1 l2 self Hm Hvs).
Qed.

(** With unrestricted scope a layer is in scope as soon as the version
    negotiation returns. *)
Lemma is_in_scope_unrestricted l self version scheme :
  methods l = None -> versions l = None ->
  determine_version (view self) (view_request (view self))
    (view_kwargs (view self)) = Ok (version, scheme) ->
  is_in_scope l self = Ok true.
Proof. intros Hm Hv Hd. by rewrite is_in_scope_unfold, Hd, Hm, Hv. Qed.

(** C3. A layer whose scope does not match is transparent: each of the
    eight field methods returns what the rest of the chain returns,
    whatever the layer declares and whatever the rest of the chain yields.
    In the scenario, layer A (GET only, [tags=["read"]]) over layer B
    (unrestricted, [description="legacy"]) resolved for POST gives the tags
    of the base class and the description of B. *)
Theorem out_of_scope_layer_is_transparent :
  (forall l super self,
     is_in_scope l self = Ok false ->
     forall fld, get_field fld (Extended l super) self = get_field fld super self) /\
  (forall b self version scheme,
     method self = Some "POST" ->
     determine_version (view self) (view_request (view self))
       (view_kwargs (view self)) = Ok (version, scheme) ->
     is_in_scope layer_A self = Ok false /\
     get_tags (Extended layer_A (Extended layer_B (Base b))) self
       = base_get_tags b self /\
     get_description (Extended layer_A (Extended layer_B (Base b))) self
       = Ok (VStr "legacy")).
Proof.
  split.
  - intros l super self H fld. apply get_field_defers. by right.
  - intros b self version scheme Hm Hd.
    assert (is_in_scope layer_A self = Ok false) as HA.
    { rewrite is_in_scope_unfold, Hd. simpl. by rewrite Hm. }
    assert (is_in_scope layer_B self = Ok true) as HB.
    { by eapply is_in_scope_unrestricted. }
    split; [done|]. split.
    + change (get_field FTags (Extended layer_A (Extended layer_B (Base b))) self
              = base_field FTags b self).
      rewrite get_field_defers by (by right).
      rewrite get_field_defers by (by left).
      apply get_field_Base.
    + change (get_field FDescription
                (Extended layer_A (Extended layer_B (Base b))) self
              = Ok (field_value FDescription layer_B)).
      rewrite get_field_defers by (by right).
      by apply get_field_wins.
Qed.

Lemma out_of_scope_layer_is_transparent_witness :
  is_in_scope layer_A
    (set_method (fresh_instance unversioned_view) "POST") = Ok false /\
  get_field FTags (Extended layer_A (Extended layer_B (Base sample_base)))
    (set_method (fresh_instance unversioned_view) "POST")
  = Ok (VList [VStr "pets"]) /\
  get_description (Extended layer_A (Extended layer_B (Base sample_base)))
    (set_method (fresh_instance unversioned_view) "POST")
  = Ok (VStr "legacy").
Proof.
  split; [reflexivity|]. split.
  - rewrite (proj1 out_of_scope_layer_is_transparent layer_A
               (Extended layer_B (Base sample_base))
               (set_method (fresh_instance unversioned_view) "POST")
               eq_refl FTags).
    reflexivity.
  - apply (proj2 out_of_scope_layer_is_transparent sample_base
             (set_method (fresh_instance unversioned_view) "POST")
             None VNone eq_refl eq_refl).
Defined.

(** ** Attachment *)

Lemma f_cls_entry_Some f cid c :
  f_cls_entry f = Some (cid, c) <->
  f_cls_ref f = Some cid /\ classes (world f) !! cid = Some c.
Proof.
  unfold f_cls_entry. destruct (f_cls_ref f) as [cid'|]; simpl.
  - destruct (classes (world f) !! cid') as [c'|] eqn:Hc; simpl.
    + split; [by intros [= <- <-]|]. intros [[= <-] ?]. congruence.
    + split; [done|]. intros [[= <-] ?]. congruence.
  - split; [done|]. by intros [? _].
Qed.

Lemma f_cls_Some f c :
  f_cls f = Some c <-> exists cid, f_cls_entry f = Some (cid, c).
Proof.
  unfold f_cls. destruct (f_cls_entry f) as [[cid c']|]; simpl.
  - split; [intros [= <-]; eauto|]. by intros (cid' & [= _ <-]).
  - split; [done|]. by intros (cid' & ?).
Qed.

Lemma f_cls_None f : f_cls f = None <-> f_cls_entry f = None.
Proof. unfold f_cls. by destruct (f_cls_entry f). Qed.

(** The loop over the handlers does not touch the classes. *)
Lemma set_handlers_kwargs_classes names E handlers w :
  classes (set_handlers_kwargs names E handlers w).2 = classes w.
Proof.
  revert w. induction names as [|n names IH]; intros w; simpl; [done|].
  destruct (handlers !! n) as [fid|]; [|done].
  destruct (fn_settable (function_of w fid)); [|done].
  by rewrite IH.
Qed.

Lemma decorator_class D l f f' :
  isclass f = true -> decorator D l f = Ok f' ->
  subclassable f = true /\
  f' = {| isclass := true; callable := callable f;
          subclassable := true; settable := true;
          f_schema := Some (SchemaInstance (ExtendedSchema_for D l f));
          f_kwargs := f_kwargs f; f_cls_ref := f_cls_ref f;
          world := world f |}.
Proof.
  intros H. unfold decorator, decorator_run. rewrite H.
  destruct (subclassable f); [|done]. by intros [= <-].
Qed.

Lemma decorator_callable D l f f' :
  isclass f = false -> callable f = true -> f_cls f = None ->
  decorator D l f = Ok f' ->
  f' = {| isclass := false; callable := true;
          subclassable := subclassable f; settable := settable f;
          f_schema := f_schema f;
          f_kwargs :=
            Some {| kw_schema := Some (SchemaClass (ExtendedSchema_for D l f));
                    kw_others := match f_kwargs f with
                                 | Some d => kw_others d
                                 | None => ∅
                                 end |};
          f_cls_ref := f_cls_ref f; world := world f |}.
Proof.
  intros H1 H2 H3%f_cls_None. unfold decorator, decorator_run.
  rewrite H1, H2, H3. destruct (f_kwargs f); [by intros [= <-]|].
  destruct (settable f); [|done]. by intros [= <-].
Qed.

Lemma decorator_api_view D l f cid c f' :
  isclass f = false -> callable f = true -> f_cls_entry f = Some (cid, c) ->
  decorator D l f = Ok f' ->
  exists w,
    set_handlers_kwargs (http_method_names c) (ExtendedSchema_for D l f)
      (cls_handlers c)
      {| functions := functions (world f);
         classes :=
           <[cid := {| cls_kwargs :=
                         Some (schema_kwargs (ExtendedSchema_for D l f));
                       http_method_names := http_method_names c;
                       cls_handlers := cls_handlers c |}]>
             (classes (world f)) |}
    = (Ok (), w) /\
    f' = {| isclass := false; callable := true;
            subclassable := subclassable f; settable := settable f;
            f_schema := f_schema f; f_kwargs := f_kwargs f;
            f_cls_ref := f_cls_ref f; world := w |}.
Proof.
  intros H1 H2 H3. unfold decorator, decorator_run. rewrite H1, H2, H3.
  destruct (set_handlers_kwargs _ _ _ _) as [[[]|e] w]; [|done].
  intros [= <-]. by exists w.
Qed.

(** After the decoration of an [@api_view] function its class carries the
    new schema class in [kwargs]. *)
Lemma decorator_api_view_cls D l f cid c f' :
  isclass f = false -> callable f = true -> f_cls_entry f = Some (cid, c) ->
  decorator D l f = Ok f' ->
  f_cls_entry f'
  = Some (cid, {| cls_kwargs := Some (schema_kwargs (ExtendedSchema_for D l f));
                  http_method_names := http_method_names c;
                  cls_handlers := cls_handlers c |}).
Proof.
  intros H1 H2 H3 Hdec.
  destruct (decorator_api_view _ _ _ _ _ _ H1 H2 H3 Hdec) as (w & Hw & ->).
  apply f_cls_entry_Some in H3 as [Hcid _]. apply f_cls_entry_Some. simpl.
  split; [done|].
  pose proof (set_handlers_kwargs_classes (http_method_names c)
                (ExtendedSchema_for D l f) (cls_handlers c)
                {| functions := functions (world f);
                   classes :=
                     <[cid := {| cls_kwargs :=
                                   Some (schema_kwargs (ExtendedSchema_for D l f));
                                 http_method_names := http_method_names c;
                                 cls_handlers := cls_handlers c |}]>
                       (classes (world f)) |}) as Hcl.
  rewrite Hw in Hcl. simpl in Hcl. rewrite Hcl. apply lookup_insert_eq.
Qed.

(** On a regular site the class found by the next decorator is the one
    this decorator stored, and the site stays regular. *)
Lemma decorator_stacks D l f f' :
  regular_site f -> decorator D l f = Ok f' ->
  attached_schema D f' = Extended l (attached_schema D f) /\ regular_site f'.
Proof.
  intros Hreg Hdec.
  destruct (isclass f) eqn:Hc.
  { destruct (decorator_class _ _ _ _ Hc Hdec) as [_ ->].
    split; [done|by left]. }
  destruct Hreg as [Hreg|(Hcall & Hs & Hk)]; [congruence|].
  destruct (f_cls_entry f) as [[cid c]|] eqn:Hcls.
  - pose proof (decorator_api_view_cls _ _ _ _ _ _ Hc Hcall Hcls Hdec) as Hc'.
    destruct (decorator_api_view _ _ _ _ _ _ Hc Hcall Hcls Hdec)
      as (w & Hw & ->).
    destruct Hk as [Hk|Hk].
    { apply f_cls_None in Hk. congruence. }
    split.
    + unfold attached_schema at 1, find_base_schema, f_cls.
      rewrite Hc'. simpl. by rewrite Hs, Hk.
    + right. simpl. eauto.
  - apply f_cls_None in Hcls.
    rewrite (decorator_callable _ _ _ _ Hc Hcall Hcls Hdec).
    split.
    + unfold attached_schema at 1, find_base_schema. simpl. by rewrite Hs.
    + right. simpl. split; [done|]. split; [done|]. left.
      apply f_cls_None. by apply f_cls_None in Hcls.
Qed.

(** C2. Each field is resolved on its own: the outermost layer that is in
    scope and declares the field (the guard of its method holds: the value
    is true, or not [None] for the tags) gives its value, whatever that
    layer or the others declare for other fields; when every layer defers,
    the base class answers; and the result for a field only depends on what
    the layers declare for that field and on their scopes.  Decorating an
    undecorated object of any of the three shapes with [description="x"]
    and then with [tags=["a"]] yields a class whose tags are ["a"] and
    whose description is "x", the other fields being those of the base. *)
Theorem fields_resolve_independently :
  (forall fld outs l inner self,
     Forall (defers fld self) outs ->
     declares fld l = true -> is_in_scope l self = Ok true ->
     get_field fld (stack (outs ++ [l]) inner) self = Ok (field_value fld l)) /\
  (forall fld ls b self,
     Forall (defers fld self) ls ->
     get_field fld (stack ls (Base b)) self = base_field fld b self) /\
  (forall fld ls1 ls2 inner self,
     Forall2 (same_on fld) ls1 ls2 ->
     get_field fld (stack ls1 inner) self
       = get_field fld (stack ls2 inner) self) /\
  (forall b f f1 f2 self version scheme,
     f = plain_callable \/ f = view_class \/ f = api_view_function ->
     decorator (SchemaClass (Base b)) layer_description_x f = Ok f1 ->
     decorator (SchemaClass (Base b)) layer_tags_a f1 = Ok f2 ->
     determine_version (view self) (view_request (view self))
       (view_kwargs (view self)) = Ok (version, scheme) ->
     get_tags (attached_schema (SchemaClass (Base b)) f2) self
       = Ok (VList [VStr "a"]) /\
     get_description (attached_schema (SchemaClass (Base b)) f2) self
       = Ok (VStr "x") /\
     forall fld, fld <> FTags -> fld <> FDescription ->
       get_field fld (attached_schema (SchemaClass (Base b)) f2) self
         = base_field fld b self).
Proof.
  split; [|split; [|split]].
  - intros fld outs l inner self Houts Hd Hs.
    rewrite stack_app, get_field_stack_defers by done.
    by apply get_field_wins.
  - intros fld ls b self Hls.
    rewrite get_field_stack_defers by done. apply get_field_Base.
  - intros fld ls1 ls2 inner self H. by apply get_field_same_on.
  - intros b f f1 f2 self version scheme Hf H1 H2 Hd.
    assert (regular_site f /\ attached_schema (SchemaClass (Base b)) f = Base b)
      as [Hreg Hf0].
    { destruct Hf as [-> | [-> | ->]]; (split; [|done]).
      - right. simpl. eauto.
      - by left.
      - right. simpl. eauto. }
    destruct (decorator_stacks _ _ _ _ Hreg H1) as [E1 Hreg1].
    destruct (decorator_stacks _ _ _ _ Hreg1 H2) as [E2 _].
    rewrite E2, E1, Hf0.
    assert (is_in_scope layer_tags_a self = Ok true) as Ha
      by (by eapply is_in_scope_unrestricted).
    assert (is_in_scope layer_description_x self = Ok true) as Hx
      by (by eapply is_in_scope_unrestricted).
    split; [|split].
    + by apply (get_field_wins FTags).
    + change (get_field FDescription
                (Extended layer_tags_a (Extended layer_description_x (Base b))) self
              = Ok (field_value FDescription layer_description_x)).
      rewrite get_field_defers by (by left).
      by apply get_field_wins.
    + intros fld Ht Hx'.
      rewrite !get_field_defers, get_field_Base; [done|left..];
        by destruct fld.
Qed.

Lemma fields_resolve_independently_witness :
  get_field FDescription (stack ([layer_A] ++ [layer_B]) (Base sample_base))
    post_instance = Ok (VStr "legacy") /\
  get_tags (attached_schema sample_default callable_described_tagged)
    get_instance = Ok (VList [VStr "a"]) /\
  get_description (attached_schema sample_default callable_described_tagged)
    get_instance = Ok (VStr "x").
Proof.
  destruct fields_resolve_independently as (Hfirst & _ & _ & Hsite).
  split.
  - apply (Hfirst FDescription [layer_A] layer_B (Base sample_base)
             post_instance).
    + constructor; [right; reflexivity | constructor].
    + reflexivity.
    + reflexivity.
  - destruct (Hsite sample_base plain_callable callable_described
                callable_described_tagged get_instance None VNone)
      as (Ht & Hx & _).
    + left. reflexivity.
    + reflexivity.
    + reflexivity.
    + reflexivity.
    + split; [exact Ht|exact Hx].
Defined.

(** C7. An empty [tags] is an override, a missing one is not.  Let the
    layers outside [l] be out of scope and [l] be in scope.  With
    [tags=[]] on [l], [get_tags] returns the empty list whatever is below:
    inner layers that declare tags, or a base class that discovers some.
    With [tags=None] on [l] it defers: it returns what the base class
    discovers when [l] is the innermost layer, the tags of the next layer
    when that one declares tags and is in scope, and in general what the
    chain below [l] returns. *)
Theorem empty_tags_is_an_override outs l self
    (Houts : Forall (fun l' => is_in_scope l' self = Ok false) outs)
    (Hin : is_in_scope l self = Ok true) :
  (tags l = VList [] ->
   forall inner, get_tags (stack (outs ++ [l]) inner) self = Ok (VList [])) /\
  (tags l = VNone ->
   (forall b,
      get_tags (stack (outs ++ [l]) (Base b)) self = base_get_tags b self) /\
   (forall l2 inner,
      is_not_None (tags l2) = true -> is_in_scope l2 self = Ok true ->
      get_tags (stack (outs ++ [l]) (Extended l2 inner)) self = Ok (tags l2)) /\
   (forall inner,
      get_tags (stack (outs ++ [l]) inner) self = get_tags inner self)).
Proof.
  assert (forall inner,
            get_tags (stack (outs ++ [l]) inner) self
            = get_field FTags (Extended l inner) self) as Hl.
  { intros inner. change get_tags with (get_field FTags).
    by rewrite stack_app, get_field_stack_defers
      by by apply out_of_scope_defers. }
  split; intros Ht.
  - intros inner. rewrite Hl, <- Ht.
    apply get_field_wins; [|done]. simpl. by rewrite Ht.
  - assert (forall inner,
              get_tags (stack (outs ++ [l]) inner) self = get_tags inner self)
      as Hdefer.
    { intros inner. rewrite Hl. apply (get_field_defers FTags).
      left. simpl. by rewrite Ht. }
    split; [|split; [|done]].
    + intros b. by rewrite Hdefer.
    + intros l2 inner H2 Hs2. rewrite Hdefer.
      by apply (get_field_wins FTags).
Qed.

Lemma empty_tags_is_an_override_witness :
  get_tags (stack ([layer_A] ++ [layer_no_tags]) (Base sample_base))
    post_instance = Ok (VList []) /\
  get_tags (stack ([layer_A] ++ [layer_B]) (Base sample_base))
    post_instance = base_get_tags sample_base post_instance /\
  base_get_tags sample_base post_instance = Ok (VList [VStr "pets"]).
Proof.
  assert (Forall (fun l' => is_in_scope l' post_instance = Ok false)
            [layer_A]) as Houts.
  { constructor; [reflexivity | constructor]. }
  split; [|split; [|reflexivity]].
  - apply (proj1 (empty_tags_is_an_override [layer_A] layer_no_tags
                    post_instance Houts eq_refl) eq_refl).
  - apply (proj2 (empty_tags_is_an_override [layer_A] layer_B
                    post_instance Houts eq_refl) eq_refl).
Defined.

(** ** Falsy overrides *)

Lemma set_field_same_scope fld v l self :
  is_in_scope (set_field fld v l) self = is_in_scope l self.
Proof. by apply is_in_scope_same_scope. Qed.

Lemma field_value_set_field fld v l : field_value fld (set_field fld v l) = v.
Proof. by destruct fld. Qed.

(** [get_operation] of a layer whose [exclude] is false goes straight to
    the test on [operation]. *)
Lemma get_operation_in_not_excluded l super vt self path path_regex m registry :
  truthy (exclude l) = false ->
  get_operation_in (Extended l super) vt self path path_regex m registry =
    match py_and (is_not_None (operation l))
            (is_in_scope l (set_method self m)) with
    | Raise e => (Raise e, set_method self m)
    | Ok true => (Ok (operation l), set_method self m)
    | Ok false =>
        get_operation_in super vt (set_method self m) path path_regex m
          registry
    end.
Proof. intros H. simpl. by rewrite H. Qed.

(** C10. For the seven fields other than the tags, a layer whose value for
    the field is false in the sense of [bool()] behaves as the same layer
    with [None] for that field, and as no layer at all: the rest of the
    chain answers, in scope or not.  The same holds for [exclude]: any
    false value is [exclude=False].  So [deprecated=False] over an in-scope
    [deprecated=True] resolves to [True], and [description=""] and
    [parameters=[]] defer. *)
Theorem falsy_override_is_no_override :
  (forall fld l super self,
     fld <> FTags -> truthy (field_value fld l) = false ->
     get_field fld (Extended l super) self = get_field fld super self /\
     get_field fld (Extended l super) self
       = get_field fld (Extended (set_field fld VNone l) super) self) /\
  (forall l super vt self path path_regex m registry,
     truthy (exclude l) = false ->
     get_operation_in (Extended l super) vt self path path_regex m registry
       = get_operation_in (Extended (set_exclude (VBool false) l) super) vt
           self path path_regex m registry) /\
  (forall lo li inner self,
     deprecated lo = VBool false -> deprecated li = VBool true ->
     is_in_scope li self = Ok true ->
     is_deprecated (Extended lo (Extended li inner)) self = Ok (VBool true)) /\
  (forall l super self,
     description l = VStr "" ->
     get_description (Extended l super) self = get_description super self) /\
  (forall l super self,
     parameters l = VList [] ->
     get_override_parameters (Extended l super) self
       = get_override_parameters super self).
Proof.
  assert (forall fld l super self,
            fld <> FTags -> truthy (field_value fld l) = false ->
            get_field fld (Extended l super) self = get_field fld super self)
    as Hskip.
  { intros fld l super self Hfld Hf. apply get_field_defers. left.
    by destruct fld. }
  split; [|split; [|split; [|split]]].
  - intros fld l super self Hfld Hf. split; [by apply Hskip|].
    rewrite (Hskip fld l) by done.
    rewrite (Hskip fld (set_field fld VNone l)); [done..|].
    by rewrite field_value_set_field.
  - intros l super vt self path path_regex m registry He.
    by rewrite !get_operation_in_not_excluded.
  - intros lo li inner self Ho Hi Hs.
    rewrite (Hskip FDeprecated) by (done || simpl; by rewrite Ho).
    rewrite <- Hi. apply (get_field_wins FDeprecated); [|done].
    simpl. by rewrite Hi.
  - intros l super self Hd.
    apply (Hskip FDescription); [done|]. simpl. by rewrite Hd.
  - intros l super self Hp.
    apply (Hskip FParameters); [done|]. simpl. by rewrite Hp.
Qed.

Lemma falsy_override_is_no_override_witness :
  is_in_scope layer_not_deprecated get_instance = Ok true /\
  is_deprecated
    (Extended layer_not_deprecated
       (Extended layer_is_deprecated (Base sample_base))) get_instance
  = Ok (VBool true) /\
  get_field FDeprecated
    (Extended layer_not_deprecated (Base sample_base)) get_instance
  = get_field FDeprecated (Base sample_base) get_instance.
Proof.
  destruct falsy_override_is_no_override as (Hfld & _ & Hdep & _).
  split; [reflexivity|]. split.
  - apply (Hdep layer_not_deprecated layer_is_deprecated (Base sample_base)
             get_instance); reflexivity.
  - apply (Hfld FDeprecated layer_not_deprecated (Base sample_base)
             get_instance); [discriminate | reflexivity].
Defined.

(** ** [get_operation] *)

(** Every layer writes [self.method] first, so the value found there on
    entry does not matter. *)
Lemma get_operation_in_Extended_set_method l super vt self m0
    path path_regex m registry :
  get_operation_in (Extended l super) vt (set_method self m0) path path_regex
    m registry
  = get_operation_in (Extended l super) vt self path path_regex m registry.
Proof. reflexivity. Qed.

Lemma get_operation_in_passes l super vt self path path_regex m registry :
  passes (set_method self m) l ->
  get_operation_in (Extended l super) vt self path path_regex m registry
  = get_operation_in super vt (set_method self m) path path_regex m registry.
Proof.
  intros [He Ho]. simpl.
  assert (py_and (truthy (exclude l)) (is_in_scope l (set_method self m))
          = Ok false) as ->.
  { destruct He as [-> | ->]; [done|]. by destruct (truthy _). }
  assert (py_and (is_not_None (operation l))
            (is_in_scope l (set_method self m)) = Ok false) as ->.
  { destruct Ho as [-> | ->]; [done|]. by destruct (is_not_None _). }
  done.
Qed.

Lemma get_operation_in_excluded l super vt self path path_regex m registry :
  truthy (exclude l) = true -> is_in_scope l (set_method self m) = Ok true ->
  get_operation_in (Extended l super) vt self path path_regex m registry
  = (Ok VNone, set_method self m).
Proof. intros He Hs. simpl. by rewrite He, Hs. Qed.

Lemma get_operation_in_raw l super vt self path path_regex m registry :
  truthy (exclude l) = false -> operation l <> VNone ->
  is_in_scope l (set_method self m) = Ok true ->
  get_operation_in (Extended l super) vt self path path_regex m registry
  = (Ok (operation l), set_method self m).
Proof.
  intros He Ho Hs. rewrite get_operation_in_not_excluded by done.
  destruct (operation l); [done|..]; simpl; by rewrite Hs.
Qed.

(** Layers that pass are walked through down to the first one that does
    not. *)
Lemma get_operation_in_stack_passes outs l inner vt self
    path path_regex m registry :
  Forall (passes (set_method self m)) outs ->
  get_operation_in (stack outs (Extended l inner)) vt self path path_regex m
    registry
  = get_operation_in (Extended l inner) vt self path path_regex m registry.
Proof.
  intros H. revert self H. induction outs as [|l' outs IH]; intros self H.
  - done.
  - apply Forall_cons in H as [Hl' H]. simpl stack.
    rewrite get_operation_in_passes by done.
    rewrite IH by (by rewrite set_method_twice).
    apply get_operation_in_Extended_set_method.
Qed.

Lemma get_operation_in_stack_Base ls b vt self path path_regex m registry :
  Forall (passes (set_method self m)) ls ->
  get_operation_in (stack ls (Base b)) vt self path path_regex m registry
  = base_get_operation b vt
      (match ls with [] => self | _ => set_method self m end)
      path path_regex m registry.
Proof.
  intros H. revert self H. induction ls as [|l ls IH]; intros self H.
  - done.
  - apply Forall_cons in H as [Hl H]. simpl stack.
    rewrite get_operation_in_passes by done.
    rewrite IH by (by rewrite set_method_twice).
    by destruct ls.
Qed.

(** C1, as the code has it.  The layers are tried from the outermost
    inwards, and the first one that is in scope and sets [exclude] or
    [operation] decides.  If it sets [exclude] the result is [None], also
    when the same layer sets [operation], and whatever the inner layers
    declare.  Otherwise its [operation] is returned as it is, and neither
    the base class nor any field override nor an inner [exclude] is
    looked at.  When no layer decides, the call reaches [get_operation] of
    the base class, run with the field methods of the whole chain. *)
Theorem get_operation_first_deciding_layer :
  (forall outs l inner self path path_regex m registry,
     Forall (passes (set_method self m)) outs ->
     truthy (exclude l) = true ->
     is_in_scope l (set_method self m) = Ok true ->
     get_operation (stack (outs ++ [l]) inner) self path path_regex m registry
       = (Ok VNone, set_method self m)) /\
  (forall outs l inner self path path_regex m registry,
     Forall (passes (set_method self m)) outs ->
     truthy (exclude l) = false -> operation l <> VNone ->
     is_in_scope l (set_method self m) = Ok true ->
     get_operation (stack (outs ++ [l]) inner) self path path_regex m registry
       = (Ok (operation l), set_method self m)) /\
  (forall l ls b self path path_regex m registry,
     Forall (passes (set_method self m)) (l :: ls) ->
     get_operation (stack (l :: ls) (Base b)) self path path_regex m registry
       = base_get_operation b (methods_of (stack (l :: ls) (Base b)))
           (set_method self m) path path_regex m registry).
Proof.
  split; [|split].
  - intros outs l inner self path path_regex m registry Houts He Hs.
    unfold get_operation. rewrite stack_app. simpl stack at 2.
    rewrite get_operation_in_stack_passes by done.
    by apply get_operation_in_excluded.
  - intros outs l inner self path path_regex m registry Houts He Ho Hs.
    unfold get_operation. rewrite stack_app. simpl stack at 2.
    rewrite get_operation_in_stack_passes by done.
    by apply get_operation_in_raw.
  - intros l ls b self path path_regex m registry H.
    unfold get_operation. by rewrite get_operation_in_stack_Base.
Qed.

Lemma get_operation_first_deciding_layer_witness :
  get_operation (stack ([layer_A] ++ [layer_excluded]) (Base sample_base))
    (fresh_instance unversioned_view) "/pets/" VNone "POST" VNone
  = (Ok VNone, post_instance).
Proof.
  apply (proj1 get_operation_first_deciding_layer [layer_A] layer_excluded
           (Base sample_base) (fresh_instance unversioned_view)
           "/pets/" VNone "POST" VNone).
  - constructor; [|constructor]. split; left; reflexivity.
  - reflexivity.
  - reflexivity.
Defined.

(** C1, as stated, fails: an in-scope [exclude] on an inner layer does not
    win over an in-scope [operation] on an outer layer. *)
Lemma outer_operation_beats_inner_exclude :
  truthy (exclude layer_excluded) = true /\
  is_in_scope layer_excluded get_instance = Ok true /\
  is_in_scope layer_raw get_instance = Ok true /\
  raw_operation <> VNone /\
  (get_operation (Extended layer_raw (Extended layer_excluded (Base sample_base)))
     (fresh_instance unversioned_view) "/pets/" VNone "GET" VNone).1
  = Ok raw_operation.
Proof. by repeat split. Qed.

(** ** Repeated resolution *)

Lemma is_in_scope_view_method l self self' :
  view self = view self' -> method self = method self' ->
  is_in_scope l self = is_in_scope l self'.
Proof. intros Hv Hm. by rewrite !is_in_scope_unfold, Hv, Hm. Qed.

(** What a resolution returns depends on the instance only through its
    view, and the view stays. *)
Lemma get_operation_in_view_only cls vt self self' path path_regex m registry :
  base_repeatable (base_of cls) vt ->
  view self = view self' ->
  (get_operation_in cls vt self path path_regex m registry).1
    = (get_operation_in cls vt self' path path_regex m registry).1 /\
  view (get_operation_in cls vt self path path_regex m registry).2
    = view self.
Proof.
  intros Hb. revert self self'.
  induction cls as [b|l super IH]; intros self self' Hv.
  - by apply Hb.
  - simpl.
    rewrite (is_in_scope_view_method l (set_method self m)
               (set_method self' m)) by done.
    destruct (py_and (truthy (exclude l)) _) as [[|]|e]; [done| |done].
    destruct (py_and (is_not_None (operation l)) _) as [[|]|e]; [done| |done].
    apply (IH Hb (set_method self m) (set_method self' m)). done.
Qed.

(** When a layer decides, the instance is left with [method] written and
    nothing else changed. *)
Lemma get_operation_in_decided outs l inner vt self path path_regex m registry :
  Forall (passes (set_method self m)) outs ->
  is_in_scope l (set_method self m) = Ok true ->
  truthy (exclude l) = true \/ operation l <> VNone ->
  (get_operation_in (stack (outs ++ [l]) inner) vt self path path_regex m
     registry).2 = set_method self m.
Proof.
  intros Houts Hs Hd. rewrite stack_app. simpl stack at 2.
  rewrite get_operation_in_stack_passes by done.
  destruct (truthy (exclude l)) eqn:He.
  - by rewrite get_operation_in_excluded.
  - destruct Hd as [?|Ho]; [done|]. by rewrite get_operation_in_raw.
Qed.

(** When the chain has a layer, either the call ended in the chain with
    [method] written and nothing else, or it is the call of the base class
    on the instance with [method] written. *)
Lemma get_operation_in_writes_method l super vt self path path_regex m
    registry :
  (get_operation_in (Extended l super) vt self path path_regex m registry).2
  = set_method self m \/
  get_operation_in (Extended l super) vt self path path_regex m registry
  = base_get_operation (base_of super) vt (set_method self m) path path_regex
      m registry.
Proof.
  revert l self. induction super as [b|l1 super IH]; intros l self.
  - simpl.
    destruct (py_and (truthy (exclude l)) _) as [[|]|e]; [by left| |by left].
    destruct (py_and (is_not_None (operation l)) _) as [[|]|e];
      [by left|by right|by left].
  - specialize (IH l1 (set_method self m)).
    rewrite set_method_twice in IH.
    change (get_operation_in (Extended l (Extended l1 super)) vt self path
              path_regex m registry)
      with (match py_and (truthy (exclude l))
                    (is_in_scope l (set_method self m)) with
            | Raise e => (Raise e, set_method self m)
            | Ok true => (Ok VNone, set_method self m)
            | Ok false =>
                match py_and (is_not_None (operation l))
                        (is_in_scope l (set_method self m)) with
                | Raise e => (Raise e, set_method self m)
                | Ok true => (Ok (operation l), set_method self m)
                | Ok false =>
                    get_operation_in (Extended l1 super) vt
                      (set_method self m) path path_regex m registry
                end
            end).
    destruct (py_and (truthy (exclude l)) _) as [[|]|e]; [by left| |by left].
    destruct (py_and (is_not_None (operation l)) _) as [[|]|e];
      [by left| |by left].
    exact IH.
Qed.

(** C6, as the code has it.  Given a base class whose own [get_operation]
    is repeatable, resolving twice for the same context on the same object
    yields the same description, and whatever a resolution leaves on the
    instance has no influence on the description a later resolution
    returns, for the same or another context.  The object keeps its class,
    and with it every layer, and stays bound to its view.  The resolution
    is not free of effects: when the chain has a layer, the call that ends
    in the chain leaves the instance with [method] set to the method of the
    context and nothing else changed, and otherwise the instance is the one
    the base class leaves when run on the instance with [method] set. *)
Theorem resolution_is_repeatable o path path_regex m registry
    (Hb : base_repeatable (base_of (obj_class o)) (methods_of (obj_class o))) :
  (call_get_operation
     (call_get_operation o path path_regex m registry).2
     path path_regex m registry).1
  = (call_get_operation o path path_regex m registry).1 /\
  (forall path' path_regex' m' registry',
     (call_get_operation
        (call_get_operation o path path_regex m registry).2
        path' path_regex' m' registry').1
     = (call_get_operation o path' path_regex' m' registry').1) /\
  obj_class (call_get_operation o path path_regex m registry).2
  = obj_class o /\
  layers_of (obj_class (call_get_operation o path path_regex m registry).2)
  = layers_of (obj_class o) /\
  view (obj_self (call_get_operation o path path_regex m registry).2)
  = view (obj_self o) /\
  (forall l super,
     obj_class o = Extended l super ->
     obj_self (call_get_operation o path path_regex m registry).2
     = set_method (obj_self o) m \/
     obj_self (call_get_operation o path path_regex m registry).2
     = (base_get_operation (base_of super) (methods_of (obj_class o))
          (set_method (obj_self o) m) path path_regex m registry).2).
Proof.
  destruct o as [cls self]. unfold call_get_operation. simpl in *.
  assert (view (get_operation cls self path path_regex m registry).2
          = view self) as Hv.
  { by apply (get_operation_in_view_only cls _ self self). }
  split; [|split; [|split; [done|split; [done|split; [done|]]]]].
  - by apply get_operation_in_view_only.
  - intros path' path_regex' m' registry'.
    by apply get_operation_in_view_only.
  - intros l super ->. unfold get_operation.
    destruct (get_operation_in_writes_method l super
                (methods_of (Extended l super)) self path path_regex m
                registry) as [H|H]; [by left|right]. by rewrite H.
Qed.

(** The modelled engine is repeatable when its discovery only looks at the
    view. *)
Lemma sample_base_repeatable ls :
  base_repeatable sample_base (methods_of (stack ls (Base sample_base))).
Proof.
  intros self self' path path_regex m registry Hv. split; [|done].
  simpl. unfold describe. simpl.
  assert (forall fld,
            get_field fld (stack ls (Base sample_base)) (set_method self m)
            = get_field fld (stack ls (Base sample_base)) (set_method self' m))
    as H.
  { intros fld. induction ls as [|l ls IH].
    - by destruct fld.
    - simpl stack. rewrite !get_field_Extended, IH.
      unfold override_or_super.
      by rewrite (is_in_scope_view_method l (set_method self m)
                    (set_method self' m)). }
  generalize (H FOperationId) (H FParameters) (H FRequest) (H FResponses)
    (H FAuth) (H FDescription) (H FDeprecated) (H FTags).
  cbn [get_field]. by intros -> -> -> -> -> -> -> ->.
Qed.

Lemma resolution_is_repeatable_witness :
  (call_get_operation
     (call_get_operation
        {| obj_class := Extended layer_A (Extended layer_B (Base sample_base));
           obj_self := fresh_instance unversioned_view |}
        "/pets/" VNone "GET" VNone).2
     "/pets/" VNone "GET" VNone).1
  = (call_get_operation
       {| obj_class := Extended layer_A (Extended layer_B (Base sample_base));
          obj_self := fresh_instance unversioned_view |}
       "/pets/" VNone "GET" VNone).1.
Proof.
  apply (resolution_is_repeatable
           {| obj_class := Extended layer_A (Extended layer_B (Base sample_base));
              obj_self := fresh_instance unversioned_view |}
           "/pets/" VNone "GET" VNone).
  exact (sample_base_repeatable [layer_A; layer_B]).
Defined.

(** C6, as stated, fails: a resolution has an effect that the field
    methods observe.  On a fresh instance [get_tags] of a layer restricted
    to GET raises; on the instance that [get_operation] for GET left
    behind it answers. *)
Lemma resolution_writes_method :
  method (fresh_instance unversioned_view) = None /\
  get_tags (Extended layer_A (Base sample_base))
    (fresh_instance unversioned_view)
  = Raise (AttributeError "method") /\
  method
    (get_operation (Extended layer_A (Base sample_base))
       (fresh_instance unversioned_view) "/pets/" VNone "GET" VNone).2
  = Some "GET" /\
  get_tags (Extended layer_A (Base sample_base))
    (get_operation (Extended layer_A (Base sample_base))
       (fresh_instance unversioned_view) "/pets/" VNone "GET" VNone).2
  = Ok (VList [VStr "read"]).
Proof. by repeat split. Qed.

(** ** Stacking *)

(** The function objects after the loop: those of the listed handlers
    carry the new class, the others are as they were. *)
Lemma set_handlers_kwargs_functions names E handlers w w' :
  set_handlers_kwargs names E handlers w = (Ok (), w') ->
  (forall name fid,
     name ∈ names -> handlers !! name = Some fid ->
     functions w' !! fid
     = Some {| fn_kwargs := Some (schema_kwargs E); fn_settable := true |}) /\
  (forall fid,
     (forall name, name ∈ names -> handlers !! name <> Some fid) ->
     functions w' !! fid = functions w !! fid).
Proof.
  revert w. induction names as [|n names IH]; intros w H; simpl in H.
  - injection H as <-. split; [|done].
    intros name fid Hin. by apply elem_of_nil in Hin.
  - destruct (handlers !! n) as [fid0|] eqn:Hn; [|done].
    destruct (fn_settable (function_of w fid0)); [|done].
    destruct (IH _ H) as [Hlisted Hother]. split.
    + intros name fid Hin Hname.
      destruct (decide (Exists (fun name' => handlers !! name' = Some fid) names))
        as [(name' & Hin' & Hname')%Exists_exists|Hno];
        [by eapply Hlisted|].
      rewrite Exists_exists in Hno.
      apply elem_of_cons in Hin as [->|Hin]; [|destruct Hno; eauto].
      rewrite Hother.
      * simpl. rewrite Hn in Hname. injection Hname as <-.
        apply lookup_insert_eq.
      * intros name' Hin' Hname'. destruct Hno. eauto.
    + intros fid Hno. rewrite Hother.
      * simpl. apply lookup_insert_ne. intros ->.
        apply (Hno n); [apply elem_of_cons; by left|done].
      * intros name Hin. apply Hno, elem_of_cons. by right.
Qed.

(** Whether the loop fails, and how, does not depend on the class that is
    being attached. *)
Lemma set_handlers_kwargs_outcome names E E' handlers w w' :
  (forall fid,
     fn_settable (function_of w fid) = fn_settable (function_of w' fid)) ->
  (set_handlers_kwargs names E handlers w).1
  = (set_handlers_kwargs names E' handlers w').1.
Proof.
  revert w w'. induction names as [|n names IH]; intros w w' Hw; simpl.
  - done.
  - destruct (handlers !! n) as [fid|]; [|done].
    rewrite <- (Hw fid).
    destruct (fn_settable (function_of w fid)); [|done].
    apply IH. intros fid'. unfold function_of. simpl.
    destruct (decide (fid = fid')) as [->|Hne].
    + by rewrite !lookup_insert_eq.
    + rewrite !lookup_insert_ne by done. apply Hw.
Qed.

(** What a decorator call stores, shape by shape. *)
Lemma decorator_stored D l f f' :
  isclass f = true \/ callable f = true ->
  decorator D l f = Ok f' ->
  class_of <$> stored_schema f' = Some (Extended l (attached_schema D f)).
Proof.
  intros Hshape Hdec. destruct (isclass f) eqn:Hc.
  { by destruct (decorator_class _ _ _ _ Hc Hdec) as [_ ->]. }
  destruct Hshape as [?|Hcall]; [done|].
  destruct (f_cls_entry f) as [[cid c]|] eqn:Hcls.
  - pose proof (decorator_api_view_cls _ _ _ _ _ _ Hc Hcall Hcls Hdec) as Hc'.
    destruct (decorator_api_view _ _ _ _ _ _ Hc Hcall Hcls Hdec)
      as (w & Hw & ->).
    unfold stored_schema, f_cls. rewrite Hc'. done.
  - apply f_cls_None in Hcls.
    rewrite (decorator_callable _ _ _ _ Hc Hcall Hcls Hdec).
    unfold stored_schema. simpl.
    assert (f_cls {| isclass := false; callable := true;
                     subclassable := subclassable f; settable := settable f;
                     f_schema := f_schema f;
                     f_kwargs :=
                       Some {| kw_schema :=
                                 Some (SchemaClass (ExtendedSchema_for D l f));
                               kw_others := match f_kwargs f with
                                            | Some d => kw_others d
                                            | None => ∅
                                            end |};
                     f_cls_ref := f_cls_ref f; world := world f |} = None)
      as -> by exact Hcls.
    done.
Qed.






(** ** Declarations are not validated *)

(** C8, as the code has it.  The decorator does not look at what is
    declared: whether it returns, and which exception it raises when it
    does not, is the same for every layer.  A layer that declares both
    [operation] and field overrides is attached like any other, the class
    stored having that very layer outermost; and when the layer is in scope
    and does not exclude, [get_operation] returns its [operation] as it is:
    the field overrides of that layer play no part in the result. *)
Theorem declarations_are_not_validated :
  (forall D l l' f e,
     decorator D l f = Raise e -> decorator D l' f = Raise e) /\
  (forall D l l' f f',
     decorator D l f = Ok f' -> exists f'', decorator D l' f = Ok f'') /\
  (forall D l f f',
     isclass f = true \/ callable f = true ->
     decorator D l f = Ok f' ->
     exists inner, class_of <$> stored_schema f' = Some (Extended l inner)) /\
  (forall l super self path path_regex m registry,
     truthy (exclude l) = false -> operation l <> VNone ->
     is_in_scope l (set_method self m) = Ok true ->
     get_operation (Extended l super) self path path_regex m registry
       = (Ok (operation l), set_method self m) /\
     forall fld v,
       get_operation (Extended (set_field fld v l) super) self path path_regex
         m registry
       = get_operation (Extended l super) self path path_regex m registry).
Proof.
  assert (forall D l l' f,
            match decorator D l f, decorator D l' f with
            | Ok _, Ok _ => True
            | Raise e, Raise e' => e = e'
            | _, _ => False
            end) as Hsame.
  { intros D l l' f. unfold decorator, decorator_run.
    destruct (isclass f); [by destruct (subclassable f)|].
    destruct (callable f); [|done].
    destruct (f_cls_entry f) as [[cid c]|].
    - match goal with
      | |- context [set_handlers_kwargs _ (ExtendedSchema_for D l f) _ ?w1] =>
          match goal with
          | |- context [set_handlers_kwargs _ (ExtendedSchema_for D l' f) _ ?w2] =>
              pose proof (set_handlers_kwargs_outcome (http_method_names c)
                            (ExtendedSchema_for D l f)
                            (ExtendedSchema_for D l' f) (cls_handlers c)
                            w1 w2 (fun _ => eq_refl)) as Ho
          end
      end.
      destruct (set_handlers_kwargs _ (ExtendedSchema_for D l f) _ _)
        as [[[]|e] w];
        destruct (set_handlers_kwargs _ (ExtendedSchema_for D l' f) _ _)
          as [[[]|e'] w']; simpl in *; done || congruence.
    - destruct (f_kwargs f); [done|]. by destruct (settable f). }
  split; [|split; [|split]].
  - intros D l l' f e H. specialize (Hsame D l l' f). rewrite H in Hsame.
    destruct (decorator D l' f); [done|congruence].
  - intros D l l' f f' H. specialize (Hsame D l l' f). rewrite H in Hsame.
    destruct (decorator D l' f); [eauto|done].
  - intros D l f f' Hshape H. eexists. by eapply decorator_stored.
  - intros l super self path path_regex m registry He Ho Hs.
    split; [by apply get_operation_in_raw|].
    intros fld v. unfold get_operation.
    rewrite !get_operation_in_raw; done.
Qed.

Lemma declarations_are_not_validated_witness :
  get_operation (Extended layer_conflicting (Base sample_base))
    (fresh_instance unversioned_view) "/pets/" VNone "GET" VNone
  = (Ok raw_operation, get_instance).
Proof.
  apply (proj2 (proj2 (proj2 declarations_are_not_validated)) layer_conflicting
           (Base sample_base) (fresh_instance unversioned_view)
           "/pets/" VNone "GET" VNone).
  - reflexivity.
  - discriminate.
  - reflexivity.
Defined.

(** C8, as stated, fails: a call that declares both a raw operation and
    tags is attached without any error. *)
Lemma conflicting_declaration_is_accepted :
  extend_schema sample_default VNone VNone VNone VNone VNone VNone VNone
    (VList [VStr "a"]) (VBool false) raw_operation None None plain_callable
  = Ok callable_conflicting /\
  operation layer_conflicting = raw_operation /\
  tags layer_conflicting = VList [VStr "a"] /\
  is_not_None (operation layer_conflicting) = true /\
  is_not_None (tags layer_conflicting) = true.
Proof. by repeat split. Qed.

(** ** The polymorphic proxy *)

Lemma first_missing_Some field variants label :
  Polymorphic.first_missing field variants = Some label ->
  exists shape,
    (label, shape) ∈ variants /\ field ∉ Polymorphic.shape_fields shape.
Proof.
  induction variants as [|[lbl shape] rest IH]; simpl; [done|].
  case_bool_decide as Hin.
  - intros H. destruct (IH H) as (shape' & Hin' & Hno).
    exists shape'. split; [|done]. apply elem_of_cons. by right.
  - intros [= <-]. exists shape. split; [|done]. apply elem_of_cons. by left.
Qed.

Lemma first_missing_None field variants :
  Polymorphic.first_missing field variants = None <->
  forall label shape,
    (label, shape) ∈ variants -> field ∈ Polymorphic.shape_fields shape.
Proof.
  induction variants as [|[lbl shape] rest IH]; simpl.
  - split; [|done]. intros _ label shape H. by apply elem_of_nil in H.
  - case_bool_decide as Hin.
    + rewrite IH. split.
      * intros H label shape' [[= -> ->]|Hin']%elem_of_cons; eauto.
      * intros H label shape' Hin'. apply (H label), elem_of_cons. by right.
    + split; [done|]. intros H. destruct Hin.
      apply (H lbl), elem_of_cons. by left.
Qed.

(** C9.  The stored descriptor is not checked by [__init__].  Resolving
    it for an operation fails with [DiscriminatorFieldMissing] as soon as
    some variant's shape has no field named by [resource_type_field_name];
    the error carries the operation and the label of an offending
    variant, and resolution succeeds when there is none.
    For the variants cat and dog with the field "kind" missing from the
    shape of dog the label is "dog".  In a pass each operation has its own
    outcome: the failure of one leaves the outcomes of the others as they
    are in a pass without it. *)
Theorem missing_discriminator_is_reported :
  (forall name variants field,
     Polymorphic.serializers (Polymorphic.__init__ name variants field)
       = variants /\
     Polymorphic.resource_type_field_name
       (Polymorphic.__init__ name variants field) = field) /\
  (forall op d,
     (exists label shape,
        (label, shape) ∈ Polymorphic.serializers d /\
        Polymorphic.resource_type_field_name d
          ∉ Polymorphic.shape_fields shape) ->
     exists label shape,
       Polymorphic.resolve op d
         = inl (Polymorphic.DiscriminatorFieldMissing op label) /\
       (label, shape) ∈ Polymorphic.serializers d /\
       Polymorphic.resource_type_field_name d
         ∉ Polymorphic.shape_fields shape) /\
  (forall op d,
     (forall label shape,
        (label, shape) ∈ Polymorphic.serializers d ->
        Polymorphic.resource_type_field_name d
          ∈ Polymorphic.shape_fields shape) ->
     exists fragment, Polymorphic.resolve op d = inr fragment) /\
  Polymorphic.resolve "pets_list" Polymorphic.pets
    = inl (Polymorphic.DiscriminatorFieldMissing "pets_list" "dog") /\
  (forall ops1 op d ops2,
     Polymorphic.generate (ops1 ++ (op, d) :: ops2)
     = (Polymorphic.generate ops1 ++
          (op, Polymorphic.resolve op d) :: Polymorphic.generate ops2)%list).
Proof.
  split; [done|]. split; [|split; [|split; [done|]]].
  - intros op d (label & shape & Hin & Hno). unfold Polymorphic.resolve.
    destruct (Polymorphic.first_missing _ _) as [lbl|] eqn:Hm.
    + destruct (first_missing_Some _ _ _ Hm) as (shape' & ? & ?).
      by exists lbl, shape'.
    + destruct Hno. by eapply first_missing_None.
  - intros op d H. unfold Polymorphic.resolve.
    apply first_missing_None in H. rewrite H. eauto.
  - intros ops1 op d ops2. unfold Polymorphic.generate.
    by rewrite fmap_app.
Qed.

Lemma missing_discriminator_is_reported_witness :
  exists label shape,
    Polymorphic.resolve "pets_list" Polymorphic.pets
      = inl (Polymorphic.DiscriminatorFieldMissing "pets_list" label) /\
    (label, shape) ∈ Polymorphic.serializers Polymorphic.pets /\
    Polymorphic.resource_type_field_name Polymorphic.pets
      ∉ Polymorphic.shape_fields shape.
Proof.
  apply (proj1 (proj2 missing_discriminator_is_reported)
           "pets_list" Polymorphic.pets).
  exists "dog", Polymorphic.DogShape. split.
  - apply elem_of_cons. right. apply elem_of_cons. left. reflexivity.
  - apply (bool_decide_unpack _). reflexivity.
Defined.

(** ** A complete resolution *)

(** The description assembled for the twice decorated callable: tags from
    the outer layer, description from the inner one, the rest discovered. *)
Example stacked_description :
  get_operation (attached_schema sample_default callable_described_tagged)
    (fresh_instance unversioned_view) "/pets/" VNone "GET" VNone
  = (Ok (VDict [(VStr "operationId", VStr "pets_list");
                (VStr "parameters", VList []);
                (VStr "request", VNone);
                (VStr "responses", VObj "PetSerializer");
                (VStr "auth", VList []);
                (VStr "description", VStr "x");
                (VStr "deprecated", VBool false);
                (VStr "tags", VList [VStr "a"])]),
     get_instance).
Proof. reflexivity. Qed.

(** A failing version negotiation makes the resolution fail as soon as a
    layer has to evaluate its scope; [method] has been written by then. *)
Example failed_negotiation :
  get_operation (Extended layer_excluded (Base sample_base))
    (fresh_instance (versioned_view VNone)) "/pets/" VNone "GET" VNone
  = (Raise (CollaboratorError "version"),
     set_method (fresh_instance (versioned_view VNone)) "GET").
Proof. reflexivity. Qed.

(** A field method called on an instance that never went through
    [get_operation] finds no [method] to compare with [methods]. *)
Example field_method_before_get_operation :
  get_tags (Extended layer_A (Base sample_base))
    (fresh_instance unversioned_view)
  = Raise (AttributeError "method").
Proof. reflexivity. Qed.

(** * Further properties of the override chain *)

(** ** Failures of the scope predicate *)

(** X1. [is_in_scope] raises in exactly two ways: the version negotiation
    raised, whatever the restrictions of the layer (the version is
    negotiated even for an unrestricted layer), or [methods] is given and
    the instance has no [method] attribute yet. *)
Theorem is_in_scope_raises l self e :
  is_in_scope l self = Raise e <->
  determine_version (view self) (view_request (view self))
    (view_kwargs (view self)) = Raise e \/
  (exists r,
     determine_version (view self) (view_request (view self))
       (view_kwargs (view self)) = Ok r /\
     methods l <> None /\ method self = None /\
     e = AttributeError "method").
Proof.
  rewrite is_in_scope_unfold.
  destruct (determine_version _ _ _) as [[version scheme]|e'].
  - destruct (methods l) as [ms|].
    + destruct (method self) as [m0|].
      * split; [done|]. by intros [?|(r & _ & _ & ? & _)].
      * split.
        -- intros [= <-]. right. by exists (version, scheme).
        -- intros [?|(r & _ & _ & _ & ->)]; done.
    + split; [done|]. by intros [?|(r & _ & ? & _)].
  - split.
    + intros [= <-]. by left.
    + intros [[= <-]|(r & ? & _)]; done.
Qed.

(** X2. A failure of the scope predicate is not swallowed.  When the
    outermost layer that declares a field cannot evaluate its scope, the
    field method raises that exception, even if inner layers or the base
    class could have answered; and [get_operation] raises when the first
    layer that sets [exclude] or [operation] cannot evaluate its scope,
    the method having been written on the instance by then. *)
Theorem scope_failure_propagates :
  (forall fld outs l inner self e,
     Forall (defers fld self) outs ->
     declares fld l = true -> is_in_scope l self = Raise e ->
     get_field fld (stack (outs ++ [l]) inner) self = Raise e) /\
  (forall outs l inner self path path_regex m registry e,
     Forall (passes (set_method self m)) outs ->
     truthy (exclude l) = true \/ operation l <> VNone ->
     is_in_scope l (set_method self m) = Raise e ->
     get_operation (stack (outs ++ [l]) inner) self path path_regex m registry
       = (Raise e, set_method self m)).
Proof.
  split.
  - intros fld outs l inner self e Houts Hd He.
    rewrite stack_app, get_field_stack_defers by done. simpl stack.
    rewrite get_field_Extended, Hd. unfold override_or_super. simpl.
    by rewrite He.
  - intros outs l inner self path path_regex m registry e Houts Hd He.
    unfold get_operation. rewrite stack_app. simpl stack at 2.
    rewrite get_operation_in_stack_passes by done. simpl.
    destruct (truthy (exclude l)); simpl; rewrite He; [done|].
    destruct Hd as [?|Ho]; [done|]. destruct (operation l); by simpl.
Qed.

Lemma scope_failure_propagates_witness :
  get_field FTags (stack ([layer_B] ++ [layer_A]) (Base sample_base))
    (fresh_instance unversioned_view) = Raise (AttributeError "method") /\
  get_operation (stack ([layer_B] ++ [layer_excluded]) (Base sample_base))
    (fresh_instance (versioned_view VNone)) "/pets/" VNone "GET" VNone
  = (Raise (CollaboratorError "version"),
     set_method (fresh_instance (versioned_view VNone)) "GET").
Proof.
  destruct scope_failure_propagates as [Hfield Hop]. split.
  - apply (Hfield FTags [layer_B] layer_A (Base sample_base)
             (fresh_instance unversioned_view)).
    + constructor; [left; reflexivity | constructor].
    + reflexivity.
    + reflexivity.
  - apply (Hop [layer_B] layer_excluded (Base sample_base)
             (fresh_instance (versioned_view VNone)) "/pets/" VNone "GET"
             VNone).
    + constructor; [|constructor]. split; left; reflexivity.
    + left. reflexivity.
    + reflexivity.
Defined.

(** ** Where results come from *)

(** X3. A field method never makes a value up: what it returns is the
    value declared by a layer of the chain that is in scope and whose guard
    holds, or what the method of the base class returns. *)
Theorem field_result_provenance fld cls self v
    (H : get_field fld cls self = Ok v) :
  (exists l,
     l ∈ layers_of cls /\ declares fld l = true /\
     is_in_scope l self = Ok true /\ v = field_value fld l) \/
  base_field fld (base_of cls) self = Ok v.
Proof.
  induction cls as [b|l super IH].
  - right. by rewrite <- get_field_Base.
  - rewrite get_field_Extended in H. unfold override_or_super in H.
    destruct (declares fld l) eqn:Hd; simpl in H.
    + destruct (is_in_scope l self) as [[|]|e] eqn:Hs; simpl in H; [| |done].
      * injection H as <-. left. exists l.
        split; [apply elem_of_cons; by left|done].
      * destruct (IH H) as [(l' & Hin & ?)|?]; [left|by right].
        exists l'. split; [apply elem_of_cons; by right|done].
    + destruct (IH H) as [(l' & Hin & ?)|?]; [left|by right].
      exists l'. split; [apply elem_of_cons; by right|done].
Qed.

Lemma field_result_provenance_witness :
  (exists l,
     l ∈ layers_of (Extended layer_A (Extended layer_B (Base sample_base))) /\
     declares FDescription l = true /\
     is_in_scope l post_instance = Ok true /\
     VStr "legacy" = field_value FDescription l) \/
  base_field FDescription
    (base_of (Extended layer_A (Extended layer_B (Base sample_base))))
    post_instance = Ok (VStr "legacy").
Proof.
  apply (field_result_provenance FDescription
           (Extended layer_A (Extended layer_B (Base sample_base)))
           post_instance (VStr "legacy")).
  reflexivity.
Defined.

(** X4. The outcomes of [get_operation] on a decorated object.  Either
    every layer let the call through and the base class ran, on an instance
    whose [method] is already written; or the call ended in the chain with
    only [method] written, and then some layer of the chain accounts for
    it: it excludes and is in scope (result [None]), or its [operation] is
    set and it is in scope (that operation is the result), or its scope
    could not be evaluated (that exception is raised). *)
Theorem get_operation_outcomes l super vt self path path_regex m registry :
  (get_operation_in (Extended l super) vt self path path_regex m registry
   = base_get_operation (base_of super) vt (set_method self m)
       path path_regex m registry /\
   Forall (passes (set_method self m)) (l :: layers_of super)) \/
  ((get_operation_in (Extended l super) vt self path path_regex m registry).2
   = set_method self m /\
   exists l',
     l' ∈ l :: layers_of super /\
     (((get_operation_in (Extended l super) vt self path path_regex m
          registry).1 = Ok VNone /\
       truthy (exclude l') = true /\
       is_in_scope l' (set_method self m) = Ok true) \/
      ((get_operation_in (Extended l super) vt self path path_regex m
          registry).1 = Ok (operation l') /\
       operation l' <> VNone /\
       is_in_scope l' (set_method self m) = Ok true) \/
      (exists e,
         (get_operation_in (Extended l super) vt self path path_regex m
            registry).1 = Raise e /\
         is_in_scope l' (set_method self m) = Raise e))).
Proof.
  revert l self. induction super as [b|l1 super IH]; intros l self.
  - simpl.
    destruct (truthy (exclude l)) eqn:He; simpl.
    { destruct (is_in_scope l (set_method self m)) as [[|]|e] eqn:Hs; simpl.
      - right. split; [done|]. exists l.
        split; [apply elem_of_cons; by left|]. by left.
      - destruct (is_not_None (operation l)); simpl; rewrite ?Hs;
          left; (split; [done|]); constructor; [|constructor| |constructor];
          split; by right.
      - right. split; [done|]. exists l.
        split; [apply elem_of_cons; by left|]. right. right. by exists e. }
    destruct (is_not_None (operation l)) eqn:Ho; simpl.
    { destruct (is_in_scope l (set_method self m)) as [[|]|e] eqn:Hs; simpl.
      - right. split; [done|]. exists l.
        split; [apply elem_of_cons; by left|]. right. left.
        split; [done|]. split; [|done]. by destruct (operation l).
      - left. split; [done|]. constructor; [|constructor].
        split; [by left|by right].
      - right. split; [done|]. exists l.
        split; [apply elem_of_cons; by left|]. right. right. by exists e. }
    left. split; [done|]. constructor; [|constructor].
    split; [by left|]. left. by destruct (operation l).
  - assert (forall P : Layer -> Prop,
              (exists l', l' ∈ l1 :: layers_of super /\ P l') ->
              exists l', l' ∈ l :: layers_of (Extended l1 super) /\ P l')
      as Hshift.
    { intros P (l' & Hin & HP). exists l'.
      split; [apply elem_of_cons; by right|done]. }
    specialize (IH l1 (set_method self m)).
    rewrite set_method_twice in IH.
    assert (passes (set_method self m) l ->
            get_operation_in (Extended l (Extended l1 super)) vt self
              path path_regex m registry
            = get_operation_in (Extended l1 super) vt (set_method self m)
                path path_regex m registry) as Hpass.
    { apply get_operation_in_passes. }
    destruct (truthy (exclude l)) eqn:He.
    { destruct (is_in_scope l (set_method self m)) as [[|]|e] eqn:Hs.
      - right. rewrite get_operation_in_excluded by done.
        split; [done|]. exists l.
        split; [apply elem_of_cons; by left|]. by left.
      - rewrite Hpass by (split; by right).
        destruct IH as [[-> HF]|[-> Hex]].
        + left. split; [done|]. constructor; [split; by right|done].
        + right. split; [done|]. by apply Hshift.
      - right. simpl. rewrite He. simpl. rewrite Hs.
        split; [done|]. exists l.
        split; [apply elem_of_cons; by left|]. right. right. by exists e. }
    destruct (is_not_None (operation l)) eqn:Ho.
    { destruct (is_in_scope l (set_method self m)) as [[|]|e] eqn:Hs.
      - right. rewrite get_operation_in_raw;
          [|done|by destruct (operation l)|done].
        split; [done|]. exists l.
        split; [apply elem_of_cons; by left|]. right. left.
        split; [done|]. split; [|done]. by destruct (operation l).
      - rewrite Hpass by (split; [by left|by right]).
        destruct IH as [[-> HF]|[-> Hex]].
        + left. split; [done|].
          constructor; [split; [by left|by right]|done].
        + right. split; [done|]. by apply Hshift.
      - right. rewrite get_operation_in_not_excluded by done.
        rewrite Ho. simpl. rewrite Hs.
        split; [done|]. exists l.
        split; [apply elem_of_cons; by left|]. right. right. by exists e. }
    assert (passes (set_method self m) l) as Hp.
    { split; [by left|]. left. by destruct (operation l). }
    rewrite Hpass by done.
    destruct IH as [[-> HF]|[-> Hex]].
    + left. split; [done|]. by constructor.
    + right. split; [done|]. by apply Hshift.
Qed.

(** ** Degenerate layers *)

(** X5. An empty [methods] or an empty [versions] matches nothing: the
    layer is out of scope for every context in which its scope can be
    evaluated at all. *)
Theorem empty_restriction_matches_nothing l self
    (H : methods l = Some [] \/ versions l = Some []) :
  is_in_scope l self = Ok false \/ exists e, is_in_scope l self = Raise e.
Proof.
  rewrite is_in_scope_unfold.
  destruct (determine_version _ _ _) as [[version scheme]|e]; [|eauto].
  destruct (methods l) as [ms|] eqn:Hm.
  - destruct (method self) as [m0|]; [|eauto]. left. f_equal.
    destruct H as [[= ->]| ->]; [done|]. apply andb_false_r.
  - left. destruct H as [?| ->]; done.
Qed.

Lemma empty_restriction_matches_nothing_witness :
  is_in_scope layer_never get_instance = Ok false \/
  exists e, is_in_scope layer_never get_instance = Raise e.
Proof.
  apply (empty_restriction_matches_nothing layer_never get_instance).
  left. reflexivity.
Defined.

(** X6. A decorator call that declares no override (only a scope, or
    nothing at all) changes no result: every field method answers as the
    class below, [get_operation] goes on to the class below after writing
    [method], and the version is not even negotiated for that layer, so
    this holds also when the negotiation would fail. *)
Theorem layer_without_overrides_is_transparent l super (H : declares_nothing l) :
  (forall fld self,
     get_field fld (Extended l super) self = get_field fld super self) /\
  (forall vt self path path_regex m registry,
     get_operation_in (Extended l super) vt self path path_regex m registry
     = get_operation_in super vt (set_method self m) path path_regex m
         registry).
Proof.
  destruct H as (Hf & He & Ho). split.
  - intros fld self. apply get_field_defers. left. apply Hf.
  - intros vt self path path_regex m registry.
    apply get_operation_in_passes. split; by left.
Qed.

Lemma layer_without_overrides_is_transparent_witness :
  get_field FTags (Extended (set_scope (Some ["GET"]) None no_overrides)
                     (Base sample_base))
    (fresh_instance (versioned_view VNone))
  = Ok (VList [VStr "pets"]).
Proof.
  etrans.
  - apply (layer_without_overrides_is_transparent
             (set_scope (Some ["GET"]) None no_overrides) (Base sample_base)).
    split; [intros fld; destruct fld; reflexivity | split; reflexivity].
  - reflexivity.
Defined.

(** ** Any number of decorators *)

Lemma layers_of_stack ls inner :
  layers_of (stack ls inner) = (ls ++ layers_of inner)%list.
Proof. induction ls as [|l ls IH]; [done|]. simpl. by rewrite IH. Qed.

(** X7. On a regular site, decorators applied one after the other build
    the chain of their layers, the last applied outermost, on top of what
    was attached before; nothing is lost or reordered, and the site stays
    regular. *)
Theorem decorate_all_stacks D ls f f'
    (Hreg : regular_site f) (Hdec : decorate_all D ls f = Ok f') :
  attached_schema D f' = stack (reverse ls) (attached_schema D f) /\
  layers_of (attached_schema D f')
    = (reverse ls ++ layers_of (attached_schema D f))%list /\
  regular_site f'.
Proof.
  assert (attached_schema D f' = stack (reverse ls) (attached_schema D f) /\
          regular_site f') as [E Hreg'].
  { revert f Hreg Hdec. induction ls as [|l ls IH]; intros f Hreg Hdec.
    - simpl in Hdec. injection Hdec as <-. done.
    - simpl in Hdec. destruct (decorator D l f) as [f1|e] eqn:H1; [|done].
      simpl in Hdec.
      destruct (decorator_stacks _ _ _ _ Hreg H1) as [E1 Hreg1].
      destruct (IH f1 Hreg1 Hdec) as [E Hreg'].
      split; [|done]. by rewrite E, E1, reverse_cons, stack_app. }
  split; [done|]. split; [|done]. by rewrite E, layers_of_stack.
Qed.

Lemma decorate_all_stacks_witness :
  attached_schema sample_default callable_described_tagged
  = stack (reverse [layer_description_x; layer_tags_a])
      (attached_schema sample_default plain_callable).
Proof.
  apply (decorate_all_stacks sample_default
           [layer_description_x; layer_tags_a] plain_callable
           callable_described_tagged).
  - right. repeat split. left. reflexivity.
  - reflexivity.
Defined.

(** ** When attachment fails, and what it leaves alone *)

(** Writing the [kwargs] of a function object that accepts attributes
    keeps every function object as ready to accept attributes as it was. *)
Lemma fn_settable_after_write w fid0 kw fid :
  fn_settable (function_of w fid0) = true ->
  fn_settable
    (function_of
       {| functions :=
            <[fid0 := {| fn_kwargs := kw; fn_settable := true |}]> (functions w);
          classes := classes w |} fid)
  = fn_settable (function_of w fid).
Proof.
  intros H. unfold function_of. simpl.
  destruct (decide (fid0 = fid)) as [<-|Hne].
  - by rewrite lookup_insert_eq.
  - by rewrite lookup_insert_ne.
Qed.

Lemma set_handlers_kwargs_Ok_iff names E handlers w :
  (exists w', set_handlers_kwargs names E handlers w = (Ok (), w')) <->
  (forall name, name ∈ names ->
     exists fid, handlers !! name = Some fid /\
                 fn_settable (function_of w fid) = true).
Proof.
  revert w. induction names as [|n names IH]; intros w; simpl.
  - split; [|eauto]. intros _ name Hin. by apply elem_of_nil in Hin.
  - destruct (handlers !! n) as [fid0|] eqn:Hn.
    + destruct (fn_settable (function_of w fid0)) eqn:Hset.
      * rewrite IH. split.
        -- intros H name [->|Hin]%elem_of_cons; [eauto|].
           destruct (H name Hin) as (fid & Hfid & Hs). exists fid.
           split; [done|]. by rewrite fn_settable_after_write in Hs.
        -- intros H name Hin.
           destruct (H name) as (fid & Hfid & Hs);
             [apply elem_of_cons; by right|].
           exists fid. split; [done|]. by rewrite fn_settable_after_write.
      * split; [by intros [w' ?]|]. intros H.
        destruct (H n) as (fid & Hfid & Hs); [apply elem_of_cons; by left|].
        congruence.
    + split; [by intros [w' ?]|]. intros H.
      destruct (H n) as (fid & Hfid & Hs); [apply elem_of_cons; by left|].
      congruence.
Qed.

Lemma set_handlers_kwargs_Raise names E handlers w e w' :
  set_handlers_kwargs names E handlers w = (Raise e, w') ->
  exists name,
    name ∈ names /\
    ((handlers !! name = None /\ e = AttributeError name) \/
     (exists fid, handlers !! name = Some fid /\
                  fn_settable (function_of w fid) = false /\
                  e = AttributeError "kwargs")).
Proof.
  revert w. induction names as [|n names IH]; intros w H; simpl in H.
  - done.
  - destruct (handlers !! n) as [fid0|] eqn:Hn.
    + destruct (fn_settable (function_of w fid0)) eqn:Hset.
      * destruct (IH _ H) as (name & Hin & Hcase). exists name.
        split; [apply elem_of_cons; by right|].
        destruct Hcase as [?|(fid & Hfid & Hs & ->)]; [by left|right].
        exists fid. by rewrite fn_settable_after_write in Hs.
      * injection H as <- <-. exists n.
        split; [apply elem_of_cons; by left|]. right. eauto.
    + injection H as <- <-. exists n.
      split; [apply elem_of_cons; by left|]. by left.
Qed.

(** X8. When the decorator returns and when it raises.  It raises
    [TypeError] on a class that cannot be a base class; on an [@api_view]
    function it raises [AttributeError] when a name of
    [http_method_names] has no handler or the function object of a handler
    accepts no attribute; on a callable without [cls] and without [kwargs]
    it raises [AttributeError] when the callable accepts no attribute.  In
    every other case it returns. *)
Theorem decorator_succeeds_iff D l f :
  ((exists f', decorator D l f = Ok f') <->
   (isclass f = true -> subclassable f = true) /\
   (isclass f = false -> callable f = true ->
    forall c name, f_cls f = Some c -> name ∈ http_method_names c ->
      exists fid, cls_handlers c !! name = Some fid /\
                  fn_settable (function_of (world f) fid) = true) /\
   (isclass f = false -> callable f = true -> f_cls f = None ->
    f_kwargs f = None -> settable f = true)) /\
  (forall e,
     decorator D l f = Raise e ->
     (isclass f = true /\ subclassable f = false /\ e = TypeError "base") \/
     (isclass f = false /\ f_cls f = None /\ f_kwargs f = None /\
      settable f = false /\ e = AttributeError "kwargs") \/
     (exists c name,
        isclass f = false /\ f_cls f = Some c /\
        name ∈ http_method_names c /\
        ((cls_handlers c !! name = None /\ e = AttributeError name) \/
         (exists fid,
            cls_handlers c !! name = Some fid /\
            fn_settable (function_of (world f) fid) = false /\
            e = AttributeError "kwargs")))).
Proof.
  unfold decorator, decorator_run, f_cls.
  destruct (isclass f).
  { destruct (subclassable f); simpl.
    - split; [|done]. split; [done|eauto].
    - split; [|intros e [= <-]; by left].
      split; [by intros [f' ?]|]. by intros [H _]; specialize (H eq_refl). }
  destruct (callable f); [|split; [split; [done|eauto]|done]].
  destruct (f_cls_entry f) as [[cid c]|] eqn:Hcls; simpl.
  - match goal with
    | |- context [set_handlers_kwargs ?n ?E ?h ?w] =>
        pose proof (set_handlers_kwargs_Ok_iff n E h w) as Hok;
        pose proof (set_handlers_kwargs_Raise n E h w) as Hraise;
        destruct (set_handlers_kwargs n E h w) as [[[]|e] w']
    end; simpl.
    + split; [|done]. split; [|eauto]. intros _.
      split; [done|]. split; [|done].
      intros _ _ c' name [= <-]. apply Hok. eauto.
    + split.
      * split; [by intros [f' ?]|]. intros (_ & H & _).
        destruct (proj2 Hok) as [w'' ?]; [|done].
        intros name Hin. by apply (H eq_refl eq_refl c).
      * intros e' [= <-]. right. right.
        destruct (Hraise e w' eq_refl) as (name & Hin & Hcase).
        exists c, name. done.
  - destruct (f_kwargs f) as [kw|]; simpl.
    { split; [|done]. split; [|eauto]. done. }
    destruct (settable f); simpl.
    + split; [|done]. split; [|eauto]. done.
    + split.
      * split; [by intros [f' ?]|]. intros (_ & _ & H).
        by specialize (H eq_refl eq_refl eq_refl eq_refl).
      * intros e [= <-]. right. by left.
Qed.

Lemma decorator_succeeds_iff_witness :
  (isclass final_class = true /\ subclassable final_class = false /\
   TypeError "base" = TypeError "base") \/
  (isclass final_class = false /\ f_cls final_class = None /\
   f_kwargs final_class = None /\ settable final_class = false /\
   TypeError "base" = AttributeError "kwargs") \/
  (exists c name,
     isclass final_class = false /\ f_cls final_class = Some c /\
     name ∈ http_method_names c /\
     ((cls_handlers c !! name = None /\ TypeError "base" = AttributeError name) \/
      (exists fid,
         cls_handlers c !! name = Some fid /\
         fn_settable (function_of (world final_class) fid) = false /\
         TypeError "base" = AttributeError "kwargs"))).
Proof.
  apply (proj2 (decorator_succeeds_iff sample_default layer_tags_a final_class)
           (TypeError "base")).
  reflexivity.
Defined.

(** The three failures on concrete sites. *)
Example decorator_failures :
  decorator sample_default layer_tags_a final_class = Raise (TypeError "base") /\
  decorator sample_default layer_tags_a bound_method
  = Raise (AttributeError "kwargs") /\
  decorator sample_default layer_tags_a api_view_broken
  = Raise (AttributeError "put").
Proof. by repeat split. Qed.

(** A call that raises in the middle of the loop has written
    [f.cls.kwargs] and the handlers before the failing one. *)
Example failed_attachment_leaves_writes :
  classes (decorator_run sample_default layer_tags_a api_view_broken).2 !! 0
  = Some {| cls_kwargs :=
              Some (schema_kwargs (Extended layer_tags_a (Base sample_base)));
            http_method_names := ["get"; "put"; "patch"];
            cls_handlers := <["get" := 0]> ∅ |} /\
  functions (decorator_run sample_default layer_tags_a api_view_broken).2 !! 0
  = Some (function_with (Extended layer_tags_a (Base sample_base))).
Proof. by split. Qed.

(** X9. What an attachment leaves alone, and what it writes through.  On
    a class and on a callable without [cls] the heap is untouched, and on
    the callable the other entries of [f.kwargs] are kept.  On an
    [@api_view] function the attributes of the function itself are
    untouched; of the classes only [f.cls] changes, its [kwargs] becoming
    the one-entry dictionary; and the function objects change by identity:
    the function object of every listed handler gets the one-entry
    dictionary as [kwargs], under whatever other name and in whatever
    other class it is also installed, while a function object that is no
    listed handler of [f.cls] is as it was. *)
Theorem decorator_frame D l f f' (Hdec : decorator D l f = Ok f') :
  (isclass f = true \/ f_cls f = None -> world f' = world f) /\
  (isclass f = false -> callable f = true -> f_cls f = None ->
   f_schema f' = f_schema f /\
   exists kw, f_kwargs f' = Some kw /\
     kw_others kw = match f_kwargs f with
                    | Some d => kw_others d
                    | None => ∅
                    end) /\
  (isclass f = false -> callable f = true ->
   forall cid c, f_cls_entry f = Some (cid, c) ->
     f_schema f' = f_schema f /\ f_kwargs f' = f_kwargs f /\
     classes (world f')
     = <[cid := {| cls_kwargs := Some (schema_kwargs (ExtendedSchema_for D l f));
                   http_method_names := http_method_names c;
                   cls_handlers := cls_handlers c |}]> (classes (world f)) /\
     (forall name fid,
        name ∈ http_method_names c -> cls_handlers c !! name = Some fid ->
        functions (world f') !! fid
        = Some {| fn_kwargs := Some (schema_kwargs (ExtendedSchema_for D l f));
                  fn_settable := true |}) /\
     (forall fid,
        (forall name, name ∈ http_method_names c ->
                      cls_handlers c !! name <> Some fid) ->
        functions (world f') !! fid = functions (world f) !! fid)).
Proof.
  split; [|split].
  - intros Hcase. destruct (isclass f) eqn:Hc.
    { by destruct (decorator_class _ _ _ _ Hc Hdec) as [_ ->]. }
    destruct Hcase as [?|Hcls]; [done|].
    destruct (callable f) eqn:Hcall.
    + by rewrite (decorator_callable _ _ _ _ Hc Hcall Hcls Hdec).
    + unfold decorator, decorator_run in Hdec. rewrite Hc, Hcall in Hdec.
      by injection Hdec as <-.
  - intros Hc Hcall Hcls.
    rewrite (decorator_callable _ _ _ _ Hc Hcall Hcls Hdec). simpl.
    split; [done|]. eauto.
  - intros Hc Hcall cid c Hcls.
    destruct (decorator_api_view _ _ _ _ _ _ Hc Hcall Hcls Hdec)
      as (w & Hw & ->). simpl.
    split; [done|]. split; [done|]. split.
    + pose proof (set_handlers_kwargs_classes (http_method_names c)
                    (ExtendedSchema_for D l f) (cls_handlers c)
                    {| functions := functions (world f);
                       classes :=
                         <[cid := {| cls_kwargs :=
                                       Some (schema_kwargs
                                               (ExtendedSchema_for D l f));
                                     http_method_names := http_method_names c;
                                     cls_handlers := cls_handlers c |}]>
                           (classes (world f)) |}) as Hcl.
      by rewrite Hw in Hcl.
    + destruct (set_handlers_kwargs_functions _ _ _ _ _ Hw) as [Hl Ho].
      split; [exact Hl|]. intros fid Hno. by rewrite Ho.
Qed.

Lemma decorator_frame_witness :
  functions (world api_view_tagged) !! 1
  = Some (function_with (Extended layer_tags_a (Base sample_base))) /\
  functions (world api_view_tagged) !! 2
  = functions (world api_view_function) !! 2.
Proof.
  destruct (proj2 (proj2 (decorator_frame sample_default layer_tags_a
                            api_view_function api_view_tagged eq_refl))
              eq_refl eq_refl 0
              {| cls_kwargs := None;
                 http_method_names := ["get"; "post"; "options"];
                 cls_handlers :=
                   <["get" := 0]> (<["post" := 0]> (<["options" := 1]> ∅)) |}
              eq_refl) as (_ & _ & _ & Hlisted & Hother).
  split.
  - apply (Hlisted "options" 1); [|reflexivity].
    apply elem_of_cons. right. apply elem_of_cons. right.
    apply elem_of_cons. left. reflexivity.
  - apply Hother. intros name Hin.
    apply elem_of_cons in Hin as [->|Hin]; [discriminate|].
    apply elem_of_cons in Hin as [->|Hin]; [discriminate|].
    apply elem_of_cons in Hin as [->|Hin]; [discriminate|].
    by apply elem_of_nil in Hin.
Defined.

(** The [options] handler of the second view is the function object the
    decoration of the first view wrote to: its [kwargs] now hold the class
    made for the first view, though the second view was never decorated and
    its class has no [kwargs]. *)
Example shared_handler_is_rewritten :
  (c ← f_cls other_api_view_after;
   fid ← cls_handlers c !! "options";
   fn_kwargs (function_of (world other_api_view_after) fid))
  = Some (schema_kwargs (Extended layer_tags_a (Base sample_base))) /\
  (c ← f_cls other_api_view_after; cls_kwargs c) = None.
Proof. by split. Qed.

(** * Properties of the annotation decorators *)

Lemma first_own_Some s names d :
  first_own s names = Some d ->
  exists c obj,
    c ∈ names /\ objects s !! c = Some obj /\ own_annotation obj = Some d.
Proof.
  induction names as [|c names IH]; simpl; [done|].
  destruct (own_annotation (object_of s c)) as [d'|] eqn:Hown.
  - intros [= ->]. unfold object_of in Hown.
    destruct (objects s !! c) as [obj|] eqn:Hc; [|done].
    exists c, obj. split; [apply elem_of_cons; by left|done].
  - intros H. destruct (IH H) as (c' & obj & Hin & ?).
    exists c', obj. split; [apply elem_of_cons; by right|done].
Qed.

Lemma store_wf_find s o d :
  store_wf s -> find_annotation s o = Some d -> is_Some (dicts s !! d).
Proof.
  intros Hwf H. destruct (first_own_Some _ _ _ H) as (c & obj & _ & Hc & Hd).
  by eapply Hwf.
Qed.

Lemma fresh_dict_unused s : dicts s !! fresh (dom (dicts s)) = None.
Proof. apply not_elem_of_dom, is_fresh. Qed.

Lemma first_own_setitem d key v s names :
  first_own (setitem d key v s) names = first_own s names.
Proof.
  induction names as [|c names IH]; [done|].
  simpl. rewrite IH. done.
Qed.

Lemma find_annotation_setitem d key v s o :
  find_annotation (setitem d key v s) o = find_annotation s o.
Proof. apply first_own_setitem. Qed.

(** After the [hasattr] test and the assignment it guards, the attribute
    exists and evaluates to the dictionary at hand. *)
Lemma ensure_annotation_found s f :
  find_annotation (ensure_annotation s f).2 f = Some (ensure_annotation s f).1.
Proof.
  unfold ensure_annotation.
  destruct (find_annotation s f) as [d|] eqn:Hf; [done|].
  unfold find_annotation. simpl. unfold object_of at 1. simpl.
  by rewrite lookup_insert_eq.
Qed.

Lemma ensure_annotation_again s f :
  ensure_annotation (ensure_annotation s f).2 f = ensure_annotation s f.
Proof.
  unfold ensure_annotation at 1. rewrite ensure_annotation_found.
  by destruct (ensure_annotation s f).
Qed.

Lemma ensure_annotation_setitem d key v s f :
  find_annotation s f = Some d ->
  ensure_annotation (setitem d key v s) f = (d, setitem d key v s).
Proof.
  intros H. unfold ensure_annotation. by rewrite find_annotation_setitem, H.
Qed.

Lemma ensure_annotation_dict s f :
  store_wf s ->
  (dicts (ensure_annotation s f).2) !! (ensure_annotation s f).1
  = Some (default ∅ (annotation s f)).
Proof.
  intros Hwf. unfold ensure_annotation, annotation.
  destruct (find_annotation s f) as [d|] eqn:Hf; simpl.
  - destruct (store_wf_find _ _ _ Hwf Hf) as [a Ha]. by rewrite Ha.
  - by rewrite lookup_insert_eq.
Qed.

Lemma setitem_twice d key v w s :
  setitem d key w (setitem d key v s) = setitem d key w s.
Proof.
  unfold setitem. simpl. f_equal. apply map_eq. intros i.
  destruct (decide (d = i)) as [<-|Hne]; [|by rewrite !lookup_alter_ne].
  rewrite !lookup_alter_eq.
  destruct (dicts s !! d); simpl; [|done]. by rewrite insert_insert_eq.
Qed.

Lemma setitem_commute d k1 k2 v1 v2 s :
  k1 <> k2 ->
  setitem d k1 v1 (setitem d k2 v2 s) = setitem d k2 v2 (setitem d k1 v1 s).
Proof.
  intros Hne. unfold setitem. simpl. f_equal. apply map_eq. intros i.
  destruct (decide (d = i)) as [<-|Hne']; [|by rewrite !lookup_alter_ne].
  rewrite !lookup_alter_eq.
  destruct (dicts s !! d); simpl; [|done]. f_equal.
  by apply insert_insert_ne.
Qed.

Lemma extend_schema_field_unfold field f s :
  extend_schema_field field f s
  = setitem (ensure_annotation s f).1 "field" field (ensure_annotation s f).2.
Proof. unfold extend_schema_field. by destruct (ensure_annotation s f). Qed.

Lemma extend_schema_serializer_unfold many klass s :
  extend_schema_serializer many klass s
  = if is_not_None many
    then setitem (ensure_annotation s klass).1 "many" many
           (ensure_annotation s klass).2
    else (ensure_annotation s klass).2.
Proof.
  unfold extend_schema_serializer. by destruct (ensure_annotation s klass).
Qed.

(** X10. After [extend_schema_field(field)(f)] the annotation of [f]
    exists and holds [field] under the key "field"; every other entry it
    held before, such as "many", is kept, and an object without an
    annotation gets a dictionary with this one entry. *)
Theorem extend_schema_field_lookup field f s (Hwf : store_wf s) :
  exists a,
    annotation (extend_schema_field field f s) f = Some a /\
    a !! "field" = Some field /\
    forall key, key <> "field" ->
      a !! key = default ∅ (annotation s f) !! key.
Proof.
  rewrite extend_schema_field_unfold.
  exists (<["field" := field]> (default ∅ (annotation s f))).
  split; [|split].
  - unfold annotation at 1.
    rewrite find_annotation_setitem, ensure_annotation_found. simpl.
    by rewrite lookup_alter_eq, ensure_annotation_dict.
  - apply lookup_insert_eq.
  - intros key Hkey. by rewrite lookup_insert_ne.
Qed.

Lemma sample_store_wf : store_wf sample_store.
Proof.
  intros o obj d Ho Hd. simpl in Ho.
  destruct (decide (o = "PetSerializer")) as [->|Hp].
  - rewrite lookup_insert_eq in Ho. injection Ho as <-.
    injection Hd as <-. simpl. rewrite lookup_insert_eq. eauto.
  - rewrite lookup_insert_ne in Ho by done.
    destruct (decide (o = "CatSerializer")) as [->|Hc].
    + rewrite lookup_insert_eq in Ho. by injection Ho as <-.
    + by rewrite lookup_insert_ne in Ho.
Qed.

Lemma extend_schema_field_lookup_witness :
  exists a,
    annotation (extend_schema_field (VObj "OpenApiTypes.STR") "PetSerializer"
                  sample_store) "PetSerializer" = Some a /\
    a !! "field" = Some (VObj "OpenApiTypes.STR") /\
    forall key, key <> "field" ->
      a !! key = default ∅ (annotation sample_store "PetSerializer") !! key.
Proof.
  exact (extend_schema_field_lookup (VObj "OpenApiTypes.STR") "PetSerializer"
           sample_store sample_store_wf).
Defined.

(** X11. After [extend_schema_serializer(many)(klass)] the annotation of
    [klass] exists.  A [many] other than [None] is stored under "many",
    also when it is [False]; with [many=None] the entry "many" is as it was
    before.  The other entries are kept in both cases. *)
Theorem extend_schema_serializer_lookup many klass s (Hwf : store_wf s) :
  exists a,
    annotation (extend_schema_serializer many klass s) klass = Some a /\
    a !! "many" = (if is_not_None many then Some many
                   else default ∅ (annotation s klass) !! "many") /\
    forall key, key <> "many" ->
      a !! key = default ∅ (annotation s klass) !! key.
Proof.
  rewrite extend_schema_serializer_unfold.
  destruct (is_not_None many) eqn:Hm.
  - exists (<["many" := many]> (default ∅ (annotation s klass))).
    split; [|split].
    + unfold annotation at 1.
      rewrite find_annotation_setitem, ensure_annotation_found. simpl.
      by rewrite lookup_alter_eq, ensure_annotation_dict.
    + apply lookup_insert_eq.
    + intros key Hkey. by rewrite lookup_insert_ne.
  - exists (default ∅ (annotation s klass)). split; [|done].
    unfold annotation at 1. rewrite ensure_annotation_found. simpl.
    by apply ensure_annotation_dict.
Qed.

Lemma extend_schema_serializer_lookup_witness :
  exists a,
    annotation (extend_schema_serializer (VBool false) "PetSerializer"
                  sample_store) "PetSerializer" = Some a /\
    a !! "many" = Some (VBool false) /\
    forall key, key <> "many" ->
      a !! key = default ∅ (annotation sample_store "PetSerializer") !! key.
Proof.
  exact (extend_schema_serializer_lookup (VBool false) "PetSerializer"
           sample_store sample_store_wf).
Defined.

(** ** Shared and private dictionaries *)

Lemma ensure_annotation_Some s f d :
  find_annotation s f = Some d -> ensure_annotation s f = (d, s).
Proof. intros H. unfold ensure_annotation. by rewrite H. Qed.

(** X12. The annotation is written through the dictionary the attribute
    evaluates to.  When [f] already has the attribute, be it inherited,
    both decorators write into that dictionary and bind nothing on [f]:
    every object whose attribute evaluates to the same dictionary, such as
    the base class it is inherited from and the other subclasses of that
    class, has the new entry as well. *)
Theorem annotation_is_shared f g s d v
    (Hwf : store_wf s)
    (Hf : find_annotation s f = Some d) (Hg : find_annotation s g = Some d) :
  (objects (extend_schema_field v f s) = objects s /\
   exists a, annotation (extend_schema_field v f s) g = Some a /\
             a !! "field" = Some v) /\
  (is_not_None v = true ->
   objects (extend_schema_serializer v f s) = objects s /\
   exists a, annotation (extend_schema_serializer v f s) g = Some a /\
             a !! "many" = Some v).
Proof.
  destruct (store_wf_find _ _ _ Hwf Hf) as [a0 Ha0].
  rewrite extend_schema_field_unfold, extend_schema_serializer_unfold.
  rewrite (ensure_annotation_Some _ _ _ Hf). simpl. split.
  - split; [done|]. exists (<["field" := v]> a0).
    unfold annotation. rewrite find_annotation_setitem, Hg. simpl.
    rewrite lookup_alter_eq, Ha0. split; [done|]. apply lookup_insert_eq.
  - intros ->. split; [done|]. exists (<["many" := v]> a0).
    unfold annotation. rewrite find_annotation_setitem, Hg. simpl.
    rewrite lookup_alter_eq, Ha0. split; [done|]. apply lookup_insert_eq.
Qed.

Lemma annotation_is_shared_witness :
  exists a,
    annotation (extend_schema_serializer (VBool false) "CatSerializer"
                  sample_store) "PetSerializer" = Some a /\
    a !! "many" = Some (VBool false).
Proof.
  apply (proj2 (annotation_is_shared "CatSerializer" "PetSerializer"
                  sample_store 0 (VBool false) sample_store_wf
                  eq_refl eq_refl) eq_refl).
Defined.

Lemma first_own_insert_other s f obj ds names :
  f ∉ names ->
  first_own {| objects := <[f := obj]> (objects s); dicts := ds |} names
  = first_own s names.
Proof.
  induction names as [|c names IH]; [done|].
  intros [Hne Hnames]%not_elem_of_cons. simpl. rewrite IH by done.
  unfold object_of. simpl. by rewrite lookup_insert_ne.
Qed.

(** X13. When [f] has no annotation, not even an inherited one, the
    decorator gives it a new dictionary of its own: the annotation of any
    other object that does not inherit from [f] is what it was. *)
Theorem fresh_annotation_is_private field f g s
    (Hwf : store_wf s) (Hf : find_annotation s f = None)
    (Hg : g <> f) (Hmro : f ∉ mro_tail (object_of s g)) :
  annotation (extend_schema_field field f s) g = annotation s g /\
  forall many,
    annotation (extend_schema_serializer many f s) g = annotation s g.
Proof.
  rewrite extend_schema_field_unfold.
  assert (forall s1 : Store,
            objects s1 = objects (ensure_annotation s f).2 ->
            (forall d, d <> (ensure_annotation s f).1 ->
                       dicts s1 !! d = dicts s !! d) ->
            annotation s1 g = annotation s g) as Hframe.
  { intros s1 Hobj Hd. unfold ensure_annotation in Hobj, Hd.
    rewrite Hf in Hobj, Hd. simpl in Hobj, Hd.
    assert (find_annotation s1 g = find_annotation s g) as Hfind.
    { unfold find_annotation.
      assert (object_of s1 g = object_of s g) as ->.
      { unfold object_of. rewrite Hobj. by rewrite lookup_insert_ne. }
      destruct s1 as [o1 d1]. simpl in Hobj. subst o1.
      apply first_own_insert_other. by apply not_elem_of_cons. }
    unfold annotation. rewrite Hfind.
    destruct (find_annotation s g) as [dg|] eqn:Hdg; [|done]. simpl.
    apply Hd. intros ->.
    destruct (store_wf_find _ _ _ Hwf Hdg) as [a Ha].
    by rewrite fresh_dict_unused in Ha. }
  assert (forall d key v,
            d <> (ensure_annotation s f).1 ->
            dicts (setitem (ensure_annotation s f).1 key v
                     (ensure_annotation s f).2) !! d = dicts s !! d) as Hset.
  { intros d key v Hd. simpl. rewrite lookup_alter_ne by done.
    unfold ensure_annotation in *. rewrite Hf in *. simpl in *.
    by rewrite lookup_insert_ne. }
  split.
  - apply Hframe; [done|]. intros d Hd. by apply Hset.
  - intros many. rewrite extend_schema_serializer_unfold.
    destruct (is_not_None many).
    + apply Hframe; [done|]. intros d Hd. by apply Hset.
    + apply Hframe; [done|]. intros d Hd.
      unfold ensure_annotation in *. rewrite Hf in *. simpl in *.
      by rewrite lookup_insert_ne.
Qed.

Lemma fresh_annotation_is_private_witness :
  annotation (extend_schema_field (VObj "OpenApiTypes.STR") "get_label"
                sample_store) "PetSerializer"
  = annotation sample_store "PetSerializer".
Proof.
  apply (fresh_annotation_is_private (VObj "OpenApiTypes.STR") "get_label"
           "PetSerializer" sample_store sample_store_wf eq_refl).
  - discriminate.
  - apply not_elem_of_nil.
Defined.

(** ** Composition of the annotation decorators *)

(** X14. The two decorators can be applied to the same object in either
    order: the resulting store is the same. *)
Theorem annotation_decorators_commute field many f s :
  extend_schema_field field f (extend_schema_serializer many f s)
  = extend_schema_serializer many f (extend_schema_field field f s).
Proof.
  rewrite (extend_schema_serializer_unfold many f s).
  rewrite (extend_schema_field_unfold field f s).
  rewrite extend_schema_serializer_unfold.
  rewrite (ensure_annotation_setitem _ "field" field _ f)
    by apply ensure_annotation_found.
  simpl. destruct (is_not_None many).
  - rewrite extend_schema_field_unfold.
    rewrite (ensure_annotation_setitem _ "many" many _ f)
      by apply ensure_annotation_found.
    simpl. by apply setitem_commute.
  - rewrite extend_schema_field_unfold. by rewrite ensure_annotation_again.
Qed.

(** X15. Decorating again replaces the entry and leaves no trace of the
    earlier value: the store is the one a single call with the later value
    gives.  For [extend_schema_serializer] this holds for a later [many]
    other than [None]; a later [many=None] changes nothing at all. *)
Theorem annotation_last_call_wins f s :
  (forall v w,
     extend_schema_field w f (extend_schema_field v f s)
     = extend_schema_field w f s) /\
  (forall v w,
     is_not_None w = true ->
     extend_schema_serializer w f (extend_schema_serializer v f s)
     = extend_schema_serializer w f s) /\
  (forall v,
     extend_schema_serializer VNone f (extend_schema_serializer v f s)
     = extend_schema_serializer v f s).
Proof.
  split; [|split].
  - intros v w. rewrite (extend_schema_field_unfold v f s).
    rewrite extend_schema_field_unfold.
    rewrite (ensure_annotation_setitem _ "field" v _ f)
      by apply ensure_annotation_found.
    simpl. rewrite setitem_twice. by rewrite <- extend_schema_field_unfold.
  - intros v w Hw. rewrite (extend_schema_serializer_unfold v f s).
    rewrite !(extend_schema_serializer_unfold w), Hw.
    destruct (is_not_None v).
    + rewrite (ensure_annotation_setitem _ "many" v _ f)
        by apply ensure_annotation_found.
      simpl. by rewrite setitem_twice.
    + by rewrite ensure_annotation_again.
  - intros v. rewrite (extend_schema_serializer_unfold v f s).
    rewrite extend_schema_serializer_unfold. simpl.
    destruct (is_not_None v).
    + by rewrite (ensure_annotation_setitem _ "many" v _ f)
        by apply ensure_annotation_found.
    + by rewrite ensure_annotation_again.
Qed.

Lemma annotation_last_call_wins_witness :
  extend_schema_serializer (VBool false) "PetSerializer"
    (extend_schema_serializer (VBool true) "PetSerializer" sample_store)
  = extend_schema_serializer (VBool false) "PetSerializer" sample_store.
Proof.
  apply (proj1 (proj2 (annotation_last_call_wins "PetSerializer" sample_store))
           (VBool true) (VBool false)).
  reflexivity.
Defined.
